(** * VideoCutter: timeline, timecodes and assembly plans

    A shallow embedding of the editing logic of [VideoCutter.py] and
    [CutWindow.py].

    Conventions of the embedding.
    - A Python [str] is a [string]; characters are code points below 256.
    - A Python [int] is a [Z].
    - A Python [float] holding a time is an exact rational [Q]: rounding is
      not modelled.  The one float that is read from free text, the silence
      duration, is a [pyfloat], which adds the infinities and NaN that
      [float()] can return.
    - A raised exception is the [Raise] case of [result].
    - Calls into Qt, VLC and MoviePy are collaborators: what the user answers
      in a dialog is an argument, what the code hands to MoviePy is part of
      the outcome. *)

From Stdlib Require Import ZArith QArith Qabs String Ascii List Bool Lia Lqa.
From Stdlib Require Import DecimalString.
Import ListNotations.

Open Scope Z_scope.

(** ** Python primitives *)

Module Py.

Inductive exn := ValueError | IndexError | AttributeError.

Inductive result (A : Type) : Type :=
| Ok (a : A)
| Raise (e : exn).
Arguments Ok {A} a.
Arguments Raise {A} e.

Definition bind {A B} (r : result A) (k : A -> result B) : result B :=
  match r with
  | Ok a => k a
  | Raise e => Raise e
  end.

Fixpoint mapM {A B} (f : A -> result B) (l : list A) : result (list B) :=
  match l with
  | [] => Ok []
  | a :: l' =>
      bind (f a) (fun b => bind (mapM f l') (fun bs => Ok (b :: bs)))
  end.

(** [l[i]] on a list: [IndexError] when [i] is out of range (the indices
    used here are never negative). *)
Definition getitem {A} (l : list A) (i : nat) : result A :=
  match nth_error l i with
  | Some a => Ok a
  | None => Raise IndexError
  end.

(** *** Characters *)

Definition code (c : ascii) : Z := Z.of_nat (nat_of_ascii c).

(** [str.isdigit]-style test behind [\d]: below 256 the only decimal digits
    are ['0'..'9']. *)
Definition is_digit (c : ascii) : bool := (48 <=? code c) && (code c <=? 57).

Definition digit_val (c : ascii) : Z := code c - 48.

(** Whitespace as [str.strip] sees it, below 256. *)
Definition is_space (c : ascii) : bool :=
  let n := code c in
  ((9 <=? n) && (n <=? 13)) || ((28 <=? n) && (n <=? 32))
  || (n =? 133) || (n =? 160).

Definition colon : ascii := ":"%char.
Definition newline : ascii := ascii_of_nat 10.

(** *** [str.strip], [str.split], [int(str)] *)

Fixpoint lstrip (s : list ascii) : list ascii :=
  match s with
  | c :: s' => if is_space c then lstrip s' else s
  | [] => []
  end.

Definition rstrip (s : list ascii) : list ascii := rev (lstrip (rev s)).

Definition strip (s : list ascii) : list ascii := rstrip (lstrip s).

(** [s.split(sep)] for a one-character separator: always at least one
    field. *)
Fixpoint split (sep : ascii) (s : list ascii) : list (list ascii) :=
  match s with
  | [] => [[]]
  | c :: s' =>
      if Ascii.eqb c sep then [] :: split sep s'
      else match split sep s' with
           | f :: fs => (c :: f) :: fs
           | [] => [[c]]
           end
  end.

(** [sep.join(fields)] for a one-character separator. *)
Fixpoint join (sep : ascii) (fields : list (list ascii)) : list ascii :=
  match fields with
  | [] => []
  | f :: fields' =>
      f ++ match fields' with
           | [] => []
           | _ :: _ => sep :: join sep fields'
           end
  end.

Definition digits_value (s : list ascii) : Z :=
  fold_left (fun acc c => acc * 10 + digit_val c) s 0.

(** [int(s)] on a run of decimal digits; anything else is a [ValueError]
    (signs, blanks and underscores, which [int] also takes, never reach it
    here). *)
Definition int_of_str (s : list ascii) : result Z :=
  match s with
  | [] => Raise ValueError
  | _ => if forallb is_digit s then Ok (digits_value s) else Raise ValueError
  end.

(** *** [int(float)] and [divmod] *)

(** [int(x)] truncates towards zero. *)
Definition int_of_float (x : Q) : Z := Z.quot (Qnum x) (Zpos (Qden x)).

(** [divmod(a, b)] on integers, for a positive [b]: floor division. *)
Definition divmod (a b : Z) : Z * Z := (a / b, a mod b).

(** *** Format specs [:02] and [:03] *)

Definition str_of_nat_Z (n : Z) : list ascii :=
  list_ascii_of_string (NilZero.string_of_uint (N.to_uint (Z.to_N n))).

Definition zero : ascii := "0"%char.
Definition minus : ascii := "-"%char.

Definition zfill (w : nat) (s : list ascii) : list ascii :=
  repeat zero (w - length s) ++ s.

(** [f"{n:0w}"]: sign-aware zero padding to width [w]. *)
Definition format_0w (w : nat) (n : Z) : list ascii :=
  if n <? 0 then minus :: zfill (w - 1) (str_of_nat_Z (- n))
  else zfill w (str_of_nat_Z n).

(** *** The fragment of [re] the program uses *)

Inductive re_item :=
| Digits (lo hi : nat)    (* \d{lo,hi} *)
| Lit (c : ascii).        (* a literal character *)

(** Repetition counts of [\d{lo,hi}], greedy first: [hi, hi-1, .., lo]. *)
Definition counts_down (lo hi : nat) : list nat := rev (seq lo (S hi - lo)).

(** [$]: the end of the string, or just before a final newline. *)
Definition at_end (s : list ascii) : bool :=
  match s with
  | [] => true
  | [c] => Ascii.eqb c newline
  | _ => false
  end.

(** [re.match("^" items "$", s)] as a truth value. *)
Fixpoint re_match (p : list re_item) (s : list ascii) : bool :=
  match p with
  | [] => at_end s
  | Lit c :: p' =>
      match s with
      | d :: s' => Ascii.eqb d c && re_match p' s'
      | [] => false
      end
  | Digits lo hi :: p' =>
      existsb (fun k => Nat.eqb (length (firstn k s)) k
                        && forallb is_digit (firstn k s)
                        && re_match p' (skipn k s))
              (counts_down lo hi)
  end.

(** *** Floats read from text *)

Inductive pyfloat :=
| Finite (q : Q)
| PosInf
| NegInf
| NaN.

(** [a + b] on floats. *)
Definition pf_add (a b : pyfloat) : pyfloat :=
  match a, b with
  | NaN, _ | _, NaN => NaN
  | PosInf, NegInf | NegInf, PosInf => NaN
  | PosInf, _ | _, PosInf => PosInf
  | NegInf, _ | _, NegInf => NegInf
  | Finite x, Finite y => Finite (x + y)
  end.

(** Equality of float values, up to the representation of a rational. *)
Definition pf_eq (a b : pyfloat) : Prop :=
  match a, b with
  | Finite x, Finite y => (x == y)%Q
  | PosInf, PosInf | NegInf, NegInf | NaN, NaN => True
  | _, _ => False
  end.

(** [a >= 0] holds of a float. *)
Definition pf_nonneg (a : pyfloat) : Prop :=
  match a with
  | Finite x => (0 <= x)%Q
  | PosInf => True
  | NegInf | NaN => False
  end.

(** [a > b] on floats: false as soon as one side is NaN. *)
Definition pf_gt (a b : pyfloat) : bool :=
  match a, b with
  | NaN, _ | _, NaN => false
  | PosInf, PosInf => false
  | PosInf, _ => true
  | _, PosInf => false
  | NegInf, _ => false
  | _, NegInf => true
  | Finite x, Finite y => negb (Qle_bool x y)
  end.

(** [max(a, b)]: [a], unless [b > a]. *)
Definition max2 (a b : pyfloat) : pyfloat := if pf_gt b a then b else a.

(** [sum(l)]: left to right from [0]. *)
Definition sum (l : list pyfloat) : pyfloat := fold_left pf_add l (Finite 0).

Definition lower (c : ascii) : ascii :=
  if (65 <=? code c) && (code c <=? 90)
  then ascii_of_nat (nat_of_ascii c + 32) else c.

Definition underscore : ascii := "_"%char.

(** A [digitpart]: digits, single underscores allowed between two digits.
    Returns the digits and what follows them. *)
Fixpoint digitpart (s : list ascii) : list ascii * list ascii :=
  match s with
  | c :: s' =>
      if is_digit c then
        let (ds, rest) :=
          match s' with
          | u :: s'' =>
              if Ascii.eqb u underscore
                 && match s'' with d :: _ => is_digit d | [] => false end
              then digitpart s'' else digitpart s'
          | [] => ([], [])
          end in
        (c :: ds, rest)
      else ([], s)
  | [] => ([], [])
  end.

Definition starts_with (c : ascii) (s : list ascii) : bool :=
  match s with
  | d :: _ => Ascii.eqb d c
  | [] => false
  end.

(** An optional sign: [true] for ["-"]. *)
Definition sign (s : list ascii) : bool * list ascii :=
  match s with
  | c :: s' =>
      if Ascii.eqb c minus then (true, s')
      else if Ascii.eqb c "+"%char then (false, s')
      else (false, s)
  | [] => (false, [])
  end.

(** The optional exponent of a float literal; [None] when what follows the
    mantissa is not a well-formed exponent reaching the end of the text. *)
Definition exponent (s : list ascii) : option Z :=
  match s with
  | [] => Some 0
  | e :: s' =>
      if Ascii.eqb (lower e) "e"%char then
        let (neg, s'') := sign s' in
        match digitpart s'' with
        | ((_ :: _) as ds, []) =>
            Some (if neg then - digits_value ds else digits_value ds)
        | _ => None
        end
      else None
  end.

(** The value of [int.frac * 10^e]. *)
Definition decimal_value (int_digits frac_digits : list ascii) (e : Z) : Q :=
  inject_Z (digits_value (int_digits ++ frac_digits))
  * Qpower 10 (e - Z.of_nat (length frac_digits)).

Definition chars (s : string) : list ascii := list_ascii_of_string s.

Definition is_word (s : list ascii) (w : string) : bool :=
  String.eqb (string_of_list_ascii s) w.

(** Blanks as [float] drops them around its text: tab to carriage return
    and the space, and the blanks above 127 (which it turns into spaces).
    Unlike [str.strip] it keeps the separators 28 to 31. *)
Definition is_float_space (c : ascii) : bool :=
  let n := code c in
  ((9 <=? n) && (n <=? 13)) || (n =? 32) || (n =? 133) || (n =? 160).

Fixpoint lstrip_float (s : list ascii) : list ascii :=
  match s with
  | c :: s' => if is_float_space c then lstrip_float s' else s
  | [] => []
  end.

Definition strip_float (s : list ascii) : list ascii :=
  rev (lstrip_float (rev (lstrip_float s))).

(** From this magnitude on a decimal rounds past the largest double. *)
Definition overflow_bound : Q := Qpower 2 1024 - Qpower 2 970.

(** Up to this magnitude a decimal rounds to zero. *)
Definition underflow_bound : Q := Qpower 2 (-1075).

(** The float a decimal of magnitude [v] is read as: infinite when it
    rounds past the largest double, zero when it rounds to zero, and
    otherwise the decimal itself, kept exact. *)
Definition float_of_decimal (neg : bool) (v : Q) : pyfloat :=
  if Qle_bool overflow_bound v then (if neg then NegInf else PosInf)
  else if Qle_bool v underflow_bound then Finite 0
  else Finite (if neg then - v else v).

(** [float(s)] on a string: blanks around are dropped, then
    [[sign] (inf | infinity | nan | number [exponent])], where [number] is
    [digitpart ["." [digitpart]]] or ["." digitpart]; anything else is a
    [ValueError]. *)
Definition float_of_str (text : string) : result pyfloat :=
  let s := strip_float (chars text) in
  let (neg, body) := sign s in
  let word := map lower body in
  if is_word word "inf" || is_word word "infinity"
  then Ok (if neg then NegInf else PosInf)
  else if is_word word "nan" then Ok NaN
  else
    let (int_digits, rest) := digitpart body in
    let (frac_digits, rest') :=
      if starts_with "."%char rest then digitpart (tl rest)
      else ([], rest) in
    match int_digits, frac_digits with
    | [], [] => Raise ValueError
    | _, _ =>
        match exponent rest' with
        | Some e =>
            Ok (float_of_decimal neg
                  (decimal_value int_digits frac_digits e))
        | None => Raise ValueError
        end
    end.

End Py.

Import Py.

(** ** CutWindow.py *)

Module CutWindow.

(** *** [MarkerBar] (the dialog's read-only copy) *)

Record MarkerBar := {
  mb_duration : Q;
  markers : list Q;
}.

Definition add_marker (self : MarkerBar) (time_position : Q) : MarkerBar :=
  if Qle_bool 0 time_position && Qle_bool time_position (mb_duration self)
  then {| mb_duration := mb_duration self;
          markers := markers self ++ [time_position] |}
  else self.

(** *** [CutWindow] *)

(** An entry of [self.sections]: the string ["keep"] or ["delete"]. *)
Inductive choice := keep | delete.

Definition choice_eqb (a b : choice) : bool :=
  match a, b with
  | keep, keep | delete, delete => true
  | _, _ => false
  end.

(** One row of the section list built by [init_ui]: the label, and the
    range its Preview button is bound to.  Its toggle is bound to
    [row_index]. *)
Record section_row := {
  row_index : nat;
  row_label : string;
  row_start : Q;
  row_end : Q;
}.

Record CutWindow := {
  duration : Q;
  cut_points : list Q;
  sections : list choice;
  marker_bar : MarkerBar;
  rows : list section_row;
  silence_input : string;
  background_image_path : option string;
}.

Definition convert_seconds_to_timecode (seconds : Q) : string :=
  let (hours, remainder) := divmod (int_of_float seconds) 3600 in
  let (minutes, remainder) := divmod remainder 60 in
  let seconds := remainder in
  string_of_list_ascii
    (format_0w 2 hours ++ [colon] ++ format_0w 2 minutes ++ [colon]
     ++ format_0w 2 seconds).

Definition section_label (i : nat) (last_time cut_time : Q) : string :=
  "Section " ++ string_of_list_ascii (str_of_nat_Z (Z.of_nat i + 1)) ++ ": "
  ++ convert_seconds_to_timecode last_time ++ " - "
  ++ convert_seconds_to_timecode cut_time.

(** The section loop of [init_ui] over
    [enumerate(self.cut_points + [self.duration])], from index [i] with
    [last_time]: the rows laid out and the entries appended to
    [self.sections]. *)
Fixpoint section_loop (i : nat) (last_time : Q) (bounds : list Q)
  : list section_row * list choice :=
  match bounds with
  | [] => ([], [])
  | cut_time :: bounds' =>
      let row := {| row_index := i;
                    row_label := section_label i last_time cut_time;
                    row_start := last_time;
                    row_end := cut_time |} in
      let (rows, sections) := section_loop (S i) cut_time bounds' in
      (row :: rows, keep :: sections)
  end.

(** [__init__] followed by [init_ui]. *)
Definition init (duration : Q) (cut_points : list Q) : CutWindow :=
  let bar :=
    fold_left add_marker cut_points
      {| mb_duration := duration; markers := [] |} in
  let (rows, sections) := section_loop 0 0 (cut_points ++ [duration]) in
  {| duration := duration; cut_points := cut_points; sections := sections;
     marker_bar := bar; rows := rows; silence_input := "1";
     background_image_path := None |}.

Definition set_sections (self : CutWindow) (l : list choice) : CutWindow :=
  {| duration := duration self; cut_points := cut_points self;
     sections := l; marker_bar := marker_bar self; rows := rows self;
     silence_input := silence_input self;
     background_image_path := background_image_path self |}.

(** The user editing the silence field. *)
Definition set_silence_input (self : CutWindow) (text : string) : CutWindow :=
  {| duration := duration self; cut_points := cut_points self;
     sections := sections self; marker_bar := marker_bar self;
     rows := rows self; silence_input := text;
     background_image_path := background_image_path self |}.

(** [import_background_image]: [image_path] is the dialog's answer, empty
    when dismissed. *)
Definition import_background_image (self : CutWindow) (image_path : string)
  : CutWindow :=
  if String.eqb image_path EmptyString then self
  else {| duration := duration self; cut_points := cut_points self;
          sections := sections self; marker_bar := marker_bar self;
          rows := rows self; silence_input := silence_input self;
          background_image_path := Some image_path |}.

(** [l[i] = v]: [IndexError] out of range. *)
Definition setitem {A} (l : list A) (i : nat) (v : A) : result (list A) :=
  if (i <? length l)%nat then Ok (firstn i l ++ v :: skipn (S i) l)
  else Raise IndexError.

(** [toggle_section_choice]: [checked] is the button's state after the
    click. *)
Definition toggle_section_choice (self : CutWindow) (index : nat)
  (checked : bool) : result CutWindow :=
  bind (setitem (sections self) index (if checked then keep else delete))
       (fun l => Ok (set_sections self l)).

(** [get_silence_duration]: only [ValueError] is caught. *)
Definition get_silence_duration (self : CutWindow) : result pyfloat :=
  match float_of_str (silence_input self) with
  | Ok silence_duration => Ok (max2 silence_duration (Finite 0))
  | Raise ValueError => Ok (Finite 1)
  | Raise e => Raise e
  end.

(** *** Assembling *)

(** What is appended to the clip lists: [video.subclip(a, b).audio] and
    [AudioClip(lambda t: [0], duration=d)]. *)
Inductive step :=
| KeepRange (start stop : Q)
| SilenceGap (duration : pyfloat).

(** [clip.duration] *)
Definition clip_duration (c : step) : pyfloat :=
  match c with
  | KeepRange start stop => Finite (stop - start)
  | SilenceGap d => d
  end.

(** The gathering loop of [cut_and_join_sections_with_background], from
    index [i] with [last_time] and the clips gathered so far. *)
Fixpoint gather_with_background (self : CutWindow) (silence_duration : pyfloat)
  (i : nat) (last_time : Q) (bounds : list Q) (final_audio_clips : list step)
  : result (list step) :=
  match bounds with
  | [] => Ok final_audio_clips
  | cut_time :: bounds' =>
      bind (getitem (sections self) i) (fun section =>
        let final_audio_clips :=
          if choice_eqb section keep then
            let final_audio_clips :=
              final_audio_clips ++ [KeepRange last_time cut_time] in
            if (i <? length (cut_points self))%nat
            then final_audio_clips ++ [SilenceGap silence_duration]
            else final_audio_clips
          else final_audio_clips in
        gather_with_background self silence_duration (S i) cut_time bounds'
          final_audio_clips)
  end.

(** The gathering loop of [cut_and_join_sections_mp3]. *)
Fixpoint gather_mp3 (self : CutWindow) (silence_duration : pyfloat)
  (i : nat) (last_time : Q) (bounds : list Q) (kept_audio_clips : list step)
  : result (list step) :=
  match bounds with
  | [] => Ok kept_audio_clips
  | cut_time :: bounds' =>
      bind (getitem (sections self) i) (fun section =>
        let kept_audio_clips :=
          if choice_eqb section keep then
            let kept_audio_clips :=
              kept_audio_clips ++ [KeepRange last_time cut_time] in
            if (i <? length (cut_points self))%nat
            then kept_audio_clips ++ [SilenceGap silence_duration]
            else kept_audio_clips
          else kept_audio_clips in
        gather_mp3 self silence_duration (S i) cut_time bounds'
          kept_audio_clips)
  end.

(** The clips each export path gathers. *)
Definition plan_with_background (self : CutWindow) : result (list step) :=
  bind (get_silence_duration self) (fun silence_duration =>
    gather_with_background self silence_duration 0 0
      (cut_points self ++ [duration self]) []).

Definition plan_mp3 (self : CutWindow) : result (list step) :=
  bind (get_silence_duration self) (fun silence_duration =>
    gather_mp3 self silence_duration 0 0
      (cut_points self ++ [duration self]) []).

(** [sum([clip.duration for clip in clips])] *)
Definition total_duration (clips : list step) : pyfloat :=
  sum (map clip_duration clips).

(** Calls the export paths make to their collaborators, in order, as long
    as each call returns. *)
Inductive call :=
| Warning (title text : string)                    (* QMessageBox.warning *)
| Concatenate_audioclips (clips : list step)
| ImageClip (path : string) (duration : pyfloat)
| Write_videofile (save_path : string)
| Write_audiofile (save_path : string).

Definition truthy (s : option string) : bool :=
  match s with
  | Some p => negb (String.eqb p EmptyString)
  | None => false
  end.

(** [cut_and_join_sections_with_background]: [confirm] is whether the user
    answers Yes, [save_path] the answer of the save dialog (empty when
    dismissed). *)
Definition cut_and_join_sections_with_background (self : CutWindow)
  (confirm : bool) (save_path : string) : result (list call) :=
  bind (get_silence_duration self) (fun silence_duration =>
    if negb confirm then Ok []
    else if negb (truthy (background_image_path self)) then
      Ok [Warning "Background Image"
            "Please import a background image before proceeding."]
    else
      bind (gather_with_background self silence_duration 0 0
              (cut_points self ++ [duration self]) [])
        (fun final_audio_clips =>
           let final_duration := total_duration final_audio_clips in
           let image :=
             match background_image_path self with
             | Some p => p
             | None => EmptyString
             end in
           Ok ([Concatenate_audioclips final_audio_clips;
                ImageClip image final_duration]
               ++ (if String.eqb save_path EmptyString then []
                   else [Write_videofile save_path])))).

(** [cut_and_join_sections_mp3] *)
Definition cut_and_join_sections_mp3 (self : CutWindow)
  (confirm : bool) (save_path : string) : result (list call) :=
  bind (get_silence_duration self) (fun silence_duration =>
    if negb confirm then Ok []
    else
      bind (gather_mp3 self silence_duration 0 0
              (cut_points self ++ [duration self]) [])
        (fun kept_audio_clips =>
           match kept_audio_clips with
           | [] => Ok []
           | _ :: _ =>
               Ok ([Concatenate_audioclips kept_audio_clips]
                   ++ (if String.eqb save_path EmptyString then []
                       else [Write_audiofile save_path]))
           end)).

End CutWindow.

(** ** VideoCutter.py *)

Module VideoCutter.

(** *** [MarkerBar] (the main window's, with deletion) *)

Record MarkerBar := {
  mb_duration : Q;
  markers : list Q;
}.

(** [0 <= t <= d] *)
Definition in_range (t d : Q) : bool := Qle_bool 0 t && Qle_bool t d.

Definition add_marker (self : MarkerBar) (time_position : Q) : MarkerBar :=
  if in_range time_position (mb_duration self)
  then {| mb_duration := mb_duration self;
          markers := markers self ++ [time_position] |}
  else self.

(** [del l[i]] for an index already known to be in range. *)
Definition del_at {A} (l : list A) (i : nat) : list A :=
  firstn i l ++ skipn (S i) l.

Definition remove_marker (self : MarkerBar) (index : Z) : MarkerBar :=
  if (0 <=? index) && (index <? Z.of_nat (length (markers self)))
  then {| mb_duration := mb_duration self;
          markers := del_at (markers self) (Z.to_nat index) |}
  else self.

(** *** [VideoEditorApp] *)

(** The fields the editing logic reads or writes.  [clip] is [None] until a
    video is loaded; a loaded clip is known here by its duration.
    [text_edit] is the list of lines appended to the text box. *)
Record VideoEditorApp := {
  clip : option Q;
  cut_points : list Q;
  duration : Q;
  marker_bar : MarkerBar;
  text_edit : list string;
}.

(** [__init__] *)
Definition init : VideoEditorApp :=
  {| clip := None; cut_points := []; duration := 0;
     marker_bar := {| mb_duration := 0; markers := [] |};
     text_edit := [] |}.

(** [load_video]: [chosen] is the duration of the file picked in the dialog,
    [None] when the dialog is dismissed. *)
Definition load_video (self : VideoEditorApp) (chosen : option Q)
  : VideoEditorApp :=
  match chosen with
  | Some d =>
      {| clip := Some d; cut_points := cut_points self; duration := d;
         marker_bar := {| mb_duration := d;
                          markers := markers (marker_bar self) |};
         text_edit := text_edit self |}
  | None => self
  end.

Definition sep : list ascii := [colon].

Definition convert_seconds_to_timecode (seconds : Q) : string :=
  let (hours, remainder) := divmod (int_of_float seconds) 3600 in
  let (minutes, remainder) := divmod remainder 60 in
  let seconds := inject_Z remainder in
  let milliseconds :=
    int_of_float ((seconds - inject_Z (int_of_float seconds)) * 1000) in
  string_of_list_ascii
    (format_0w 2 hours ++ sep ++ format_0w 2 minutes ++ sep
     ++ format_0w 2 (int_of_float seconds) ++ sep
     ++ format_0w 3 milliseconds).

(** The four patterns of [parse_timecode], between [^] and [$]. *)
Definition re_hh_mm_ss_ms : list re_item :=
  [Digits 1 2; Lit colon; Digits 2 2; Lit colon; Digits 2 2; Lit colon;
   Digits 3 3].
Definition re_hh_mm_ss : list re_item :=
  [Digits 1 2; Lit colon; Digits 2 2; Lit colon; Digits 2 2].
Definition re_mm_ss_ms : list re_item :=
  [Digits 1 2; Lit colon; Digits 2 2; Lit colon; Digits 3 3].
Definition re_mm_ss : list re_item :=
  [Digits 1 2; Lit colon; Digits 2 2].

(** [map(int, timecode_str.split(":"))] *)
Definition int_fields (timecode_str : list ascii) : result (list Z) :=
  mapM int_of_str (split colon timecode_str).

(** [parse_timecode]: [Ok None] is the [None] the source returns; unpacking
    the wrong number of fields would raise [ValueError]. *)
Definition parse_timecode (timecode_str : string) : result (option Q) :=
  let timecode_str := strip (chars timecode_str) in
  if re_match re_hh_mm_ss_ms timecode_str then
    bind (int_fields timecode_str) (fun fields =>
      match fields with
      | [hours; minutes; seconds; milliseconds] =>
          Ok (Some (inject_Z (hours * 3600 + minutes * 60 + seconds)
                    + inject_Z milliseconds / 1000)%Q)
      | _ => Raise ValueError
      end)
  else if re_match re_hh_mm_ss timecode_str then
    bind (int_fields timecode_str) (fun fields =>
      match fields with
      | [hours; minutes; seconds] =>
          Ok (Some (inject_Z (hours * 3600 + minutes * 60 + seconds)))
      | _ => Raise ValueError
      end)
  else if re_match re_mm_ss_ms timecode_str then
    bind (int_fields timecode_str) (fun fields =>
      match fields with
      | [minutes; seconds; milliseconds] =>
          Ok (Some (inject_Z (minutes * 60 + seconds)
                    + inject_Z milliseconds / 1000)%Q)
      | _ => Raise ValueError
      end)
  else if re_match re_mm_ss timecode_str then
    bind (int_fields timecode_str) (fun fields =>
      match fields with
      | [minutes; seconds] => Ok (Some (inject_Z (minutes * 60 + seconds)))
      | _ => Raise ValueError
      end)
  else Ok None.

Definition set_cut_points (self : VideoEditorApp) (l : list Q)
  : VideoEditorApp :=
  {| clip := clip self; cut_points := l; duration := duration self;
     marker_bar := marker_bar self; text_edit := text_edit self |}.

Definition set_marker_bar (self : VideoEditorApp) (m : MarkerBar)
  : VideoEditorApp :=
  {| clip := clip self; cut_points := cut_points self;
     duration := duration self; marker_bar := m;
     text_edit := text_edit self |}.

(** [self.text_edit.append(line)] *)
Definition log (self : VideoEditorApp) (line : string) : VideoEditorApp :=
  {| clip := clip self; cut_points := cut_points self;
     duration := duration self; marker_bar := marker_bar self;
     text_edit := text_edit self ++ [line] |}.

(** [add_cut_point]: [player_time] is what [media_player.get_time()]
    returns, in milliseconds. *)
Definition add_cut_point (self : VideoEditorApp) (player_time : Z)
  : VideoEditorApp :=
  match clip self with
  | None => self
  | Some _ =>
      let current_time := (inject_Z player_time / 1000)%Q in
      let timecode := convert_seconds_to_timecode current_time in
      let self := set_cut_points self (cut_points self ++ [current_time]) in
      let self := log self timecode in
      set_marker_bar self (add_marker (marker_bar self) current_time)
  end.

(** [add_manual_marker]: [text] is the content of the timecode field.
    [self.clip.duration] is read only once the timecode has parsed and is
    not negative; with no clip loaded that read is an [AttributeError]. *)
Definition add_manual_marker (self : VideoEditorApp) (text : string)
  : result VideoEditorApp :=
  bind (parse_timecode text) (fun timecode_seconds =>
    match timecode_seconds with
    | Some t =>
        if Qle_bool 0 t then
          match clip self with
          | None => Raise AttributeError
          | Some clip_duration =>
              if Qle_bool t clip_duration then
                let self := set_cut_points self (cut_points self ++ [t]) in
                let timecode_display := convert_seconds_to_timecode t in
                let self :=
                  log self ("Marker added at " ++ timecode_display) in
                Ok (set_marker_bar self (add_marker (marker_bar self) t))
              else Ok (log self "Invalid timecode.")
          end
        else Ok (log self "Invalid timecode.")
    | None => Ok (log self "Invalid timecode.")
    end).

(** [undo_last_marker] *)
Definition undo_last_marker (self : VideoEditorApp) : VideoEditorApp :=
  match rev (cut_points self) with
  | last_marker :: _ =>
      let self := set_cut_points self (removelast (cut_points self)) in
      let self :=
        set_marker_bar self
          (remove_marker (marker_bar self)
             (Z.of_nat (length (markers (marker_bar self))) - 1)) in
      log self ("Removed marker at "
                ++ convert_seconds_to_timecode last_marker)
  | [] => log self "No markers to undo."
  end.

(** [remove_cut_point] *)
Definition remove_cut_point (self : VideoEditorApp) (index : Z)
  : VideoEditorApp :=
  if (0 <=? index) && (index <? Z.of_nat (length (cut_points self))) then
    match nth_error (cut_points self) (Z.to_nat index) with
    | Some removed_time =>
        let self :=
          set_cut_points self (del_at (cut_points self) (Z.to_nat index)) in
        log self ("Removed marker at "
                  ++ convert_seconds_to_timecode removed_time)
    | None => self
    end
  else self.

(** [open_cut_window]: the dialog opened on the current cut points, or
    nothing but a line in the text box when no video is loaded.  The dialog
    is modal, and receives the list of cut points itself, not a copy. *)
Definition open_cut_window (self : VideoEditorApp)
  : VideoEditorApp * option CutWindow.CutWindow :=
  match clip self with
  | None => (log self "No video loaded.", None)
  | Some _ => (self, Some (CutWindow.init (duration self) (cut_points self)))
  end.

End VideoCutter.

(** ** The specification's wording

    Definitions written from the specification, to compare the code with. *)

Module Spec.

Import CutWindow.

(** SectionDeriver: the ranges [[0,c0), [c0,c1), .., [cn,Duration]]. *)
Fixpoint ranges_from (last : Q) (bounds : list Q) : list (Q * Q) :=
  match bounds with
  | [] => []
  | c :: bounds' => (last, c) :: ranges_from c bounds'
  end.

Definition derive_sections (Duration : Q) (cut_points : list Q)
  : list (Q * Q) :=
  ranges_from 0 (cut_points ++ [Duration]).

(** AssemblyPlanner: a [KeepRange] per kept section in ascending order, and
    a [SilenceGap] immediately before every [KeepRange] but the first one
    emitted. *)
Fixpoint build_plan_from (emitted : bool) (secs : list (Q * Q * choice))
  (gap : pyfloat) : list step :=
  match secs with
  | [] => []
  | (start, stop, keep) :: secs' =>
      (if emitted then [SilenceGap gap] else [])
      ++ KeepRange start stop :: build_plan_from true secs' gap
  | (_, _, delete) :: secs' => build_plan_from emitted secs' gap
  end.

Definition build_plan (secs : list (Q * Q * choice)) (gap : pyfloat)
  : list step :=
  build_plan_from false secs gap.

(** The sections the planner is given: each derived range with the state
    chosen for it. *)
Definition planner_sections (self : CutWindow) : list (Q * Q * choice) :=
  combine (derive_sections (duration self) (cut_points self))
          (sections self).

(** Whether a kept section is followed by deleted sections only, up to the
    end of the list ([emitted]: a kept section came before [secs]). *)
Fixpoint ends_deleted (emitted : bool) (secs : list (Q * Q * choice))
  : bool :=
  match secs with
  | [] => emitted
  | (_, _, keep) :: secs' =>
      match secs' with
      | [] => false
      | _ :: _ => ends_deleted true secs'
      end
  | (_, _, delete) :: secs' => ends_deleted emitted secs'
  end.

(** The invariant of an assembly plan: kept ranges and gaps alternate,
    starting and ending with a kept range, so that a gap only ever sits
    strictly between two kept ranges, one gap per transition. *)
Fixpoint gaps_only_between (plan : list step) : bool :=
  match plan with
  | [] => true
  | [KeepRange _ _] => true
  | KeepRange _ _ :: SilenceGap _ :: ((KeepRange _ _ :: _) as plan') =>
      gaps_only_between plan'
  | _ => false
  end.

(** A numeric field of a timecode: between [lo] and [hi] decimal digits. *)
Definition field (lo hi : nat) (s : list ascii) : Prop :=
  (lo <= length s <= hi)%nat /\ forallb is_digit s = true.

Definition seconds_of (hours minutes seconds : list ascii) : Q :=
  inject_Z (digits_value hours * 3600 + digits_value minutes * 60
            + digits_value seconds).

Definition millis_of (milliseconds : list ascii) : Q :=
  (inject_Z (digits_value milliseconds) / 1000)%Q.

(** The four timecode shapes and the seconds each stands for.  The leading
    field has one or two digits, minutes and seconds after it two, and
    milliseconds three. *)
Inductive timecode : list ascii -> Q -> Prop :=
| HH_MM_SS_mmm h m s ms :
    field 1 2 h -> field 2 2 m -> field 2 2 s -> field 3 3 ms ->
    timecode (h ++ colon :: m ++ colon :: s ++ colon :: ms)
             (seconds_of h m s + millis_of ms)%Q
| HH_MM_SS h m s :
    field 1 2 h -> field 2 2 m -> field 2 2 s ->
    timecode (h ++ colon :: m ++ colon :: s) (seconds_of h m s)
| MM_SS_mmm m s ms :
    field 1 2 m -> field 2 2 s -> field 3 3 ms ->
    timecode (m ++ colon :: s ++ colon :: ms)
             (inject_Z (digits_value m * 60 + digits_value s)
              + millis_of ms)%Q
| MM_SS m s :
    field 1 2 m -> field 2 2 s ->
    timecode (m ++ colon :: s)
             (inject_Z (digits_value m * 60 + digits_value s)).

(** The pattern of colon-separated numeric fields of the given widths. *)
Fixpoint fields_pattern (widths : list (nat * nat)) : list re_item :=
  match widths with
  | [] => []
  | (lo, hi) :: widths' =>
      Digits lo hi
      :: match widths' with
         | [] => []
         | _ :: _ => Lit colon :: fields_pattern widths'
         end
  end.

(** The field widths of the four timecode shapes. *)
Definition widths_hh_mm_ss_ms : list (nat * nat) :=
  [(1, 2); (2, 2); (2, 2); (3, 3)]%nat.
Definition widths_hh_mm_ss : list (nat * nat) := [(1, 2); (2, 2); (2, 2)]%nat.
Definition widths_mm_ss_ms : list (nat * nat) := [(1, 2); (2, 2); (3, 3)]%nat.
Definition widths_mm_ss : list (nat * nat) := [(1, 2); (2, 2)]%nat.

(** A cut-point sequence in increasing order within [[0, Duration]]. *)
Fixpoint ascending_from (last : Q) (cut_points : list Q) (Duration : Q)
  : Prop :=
  match cut_points with
  | [] => (last <= Duration)%Q
  | c :: cut_points' => (last <= c)%Q /\ ascending_from c cut_points' Duration
  end.

End Spec.

(** ** VideoCutter.py: the marker bar on screen *)

Module MarkerBarView.

Import VideoCutter.

(** A value, or the [ZeroDivisionError] of a division by a zero duration. *)
Inductive evaluated (A : Type) : Type :=
| Value (a : A)
| ZeroDivisionError.
Arguments Value {A} a.
Arguments ZeroDivisionError {A}.

(** [int((marker / self.duration) * self.width())], the pixel column of a
    marker in a bar [width] pixels wide, as [paintEvent] and
    [find_marker_by_position] compute it. *)
Definition x_pos (self : MarkerBar) (width : Z) (marker : Q) : evaluated Z :=
  if Qeq_bool (mb_duration self) 0 then ZeroDivisionError
  else Value (int_of_float ((marker / mb_duration self) * inject_Z width)).

(** The loop of [find_marker_by_position] over [enumerate(self.markers)],
    from index [i]. *)
Fixpoint find_from (self : MarkerBar) (width x_position : Z) (i : nat)
  (markers : list Q) : evaluated (option nat) :=
  match markers with
  | [] => Value None
  | marker :: markers' =>
      match x_pos self width marker with
      | Value x =>
          if Z.abs (x - x_position) <? 5 then Value (Some i)
          else find_from self width x_position (S i) markers'
      | ZeroDivisionError => ZeroDivisionError
      end
  end.

Definition find_marker_by_position (self : MarkerBar) (width x_position : Z)
  : evaluated (option nat) :=
  find_from self width x_position 0 (markers self).

(** [mousePressEvent] on the bar of the main window: [x] is the column
    clicked.  The marker found is removed from the bar, then the main window
    removes the cut point of the same index. *)
Definition mousePressEvent (app : VideoEditorApp) (width x : Z)
  : evaluated VideoEditorApp :=
  match find_marker_by_position (marker_bar app) width x with
  | Value (Some clicked_marker_index) =>
      let index := Z.of_nat clicked_marker_index in
      let app := set_marker_bar app (remove_marker (marker_bar app) index) in
      Value (remove_cut_point app index)
  | Value None => Value app
  | ZeroDivisionError => ZeroDivisionError
  end.

(** The bar shows the cut points: same times, same order. *)
Definition mirrored (app : VideoEditorApp) : Prop :=
  markers (marker_bar app) = cut_points app.

(** A clip of duration [d] is loaded. *)
Definition loaded (app : VideoEditorApp) (d : Q) : Prop :=
  clip app = Some d /\ duration app = d /\ mb_duration (marker_bar app) = d.

End MarkerBarView.

(** ** CutWindow.py: what the user does in the dialog *)

Module Dialog.

Import CutWindow.

(** A click on a section's toggle, an edit of the silence field, or a
    background image picked (empty when the file dialog is dismissed). *)
Inductive action :=
| Toggle (index : nat) (checked : bool)
| Edit_silence (text : string)
| Import_background (image_path : string).

Definition perform (self : CutWindow) (a : action) : result CutWindow :=
  match a with
  | Toggle index checked => toggle_section_choice self index checked
  | Edit_silence text => Ok (set_silence_input self text)
  | Import_background image_path =>
      Ok (import_background_image self image_path)
  end.

Fixpoint perform_all (self : CutWindow) (actions : list action)
  : result CutWindow :=
  match actions with
  | [] => Ok self
  | a :: actions' => bind (perform self a) (fun w => perform_all w actions')
  end.

(** A toggle that exists in the window: its index is that of a row. *)
Definition on_a_row (self : CutWindow) (a : action) : Prop :=
  match a with
  | Toggle index _ => In index (map row_index (rows self))
  | _ => True
  end.

End Dialog.

(** * Properties *)

Import CutWindow.

Ltac invert_fields :=
  repeat match goal with
         | H : Forall2 _ _ _ |- _ => inversion H; clear H; subst
         end;
  unfold Spec.field in *; simpl fst in *; simpl snd in *.

(** ** The two export paths gather the same clips *)

Lemma gather_paths_agree (self : CutWindow) (g : pyfloat) (bounds : list Q) :
  forall i last_time clips,
    gather_with_background self g i last_time bounds clips
    = gather_mp3 self g i last_time bounds clips.
Proof.
  induction bounds as [|cut_time bounds IH]; intros i last_time clips.
  - reflexivity.
  - simpl. destruct (getitem (sections self) i) as [section|e]; simpl.
    + apply IH.
    + reflexivity.
Qed.

(** C10: for every window (duration, cut points, section states, silence
    text) the full-video path and the MP3-only path gather exactly the same
    ordered clip list: their loops agree from every starting point, and so
    do the plans the two paths derive. *)
Theorem export_paths_same_plan (self : CutWindow) :
  (forall g i last_time bounds clips,
      gather_with_background self g i last_time bounds clips
      = gather_mp3 self g i last_time bounds clips)
  /\ plan_with_background self = plan_mp3 self.
Proof.
  split.
  - intros g i last_time bounds clips. apply gather_paths_agree.
  - unfold plan_with_background, plan_mp3.
    destruct (get_silence_duration self) as [g|e]; simpl.
    + apply gather_paths_agree.
    + reflexivity.
Qed.

(** ** A worked plan: keep, delete, keep *)

(** C3: on a 30-second item with cut points at 10s and 20s and section
    states keep, delete, keep, both gathering loops yield exactly
    [KeepRange 0 10; SilenceGap g; KeepRange 20 30] for every gap duration
    [g], and the durations of that plan sum to [20 + g]. *)
Theorem plan_keep_delete_keep :
  exists w,
    toggle_section_choice (init 30 [10; 20]%Q) 1 false = Ok w
    /\ sections w = [keep; delete; keep]
    /\ (forall g,
          let plan := [KeepRange 0 10; SilenceGap g; KeepRange 20 30] in
          gather_with_background w g 0 0 (cut_points w ++ [duration w]) []
          = Ok plan
          /\ gather_mp3 w g 0 0 (cut_points w ++ [duration w]) [] = Ok plan
          /\ pf_eq (total_duration plan) (pf_add (Finite 20) g))
    /\ (forall text,
          let w' := set_silence_input w text in
          plan_mp3 w'
          = bind (get_silence_duration w')
              (fun g => Ok [KeepRange 0 10; SilenceGap g; KeepRange 20 30])).
Proof.
  eexists. split; [reflexivity|]. split; [reflexivity|]. split.
  - intros g plan. split; [reflexivity|]. split; [reflexivity|].
    unfold plan, total_duration, sum. simpl.
    destruct g; simpl; try exact I. ring.
  - intros text w'. unfold plan_mp3.
    destruct (get_silence_duration w') as [g|e]; reflexivity.
Qed.

(** ** The silence setting *)

Lemma float_of_str_raises_only_ValueError (text : string) (e : exn) :
  float_of_str text = Raise e -> e = ValueError.
Proof.
  unfold float_of_str.
  repeat match goal with
         | |- context [let (_, _) := ?x in _] => destruct x
         | |- context [if ?b then _ else _] => destruct b
         | |- context [match ?x with _ => _ end] => destruct x
         end; intros H; inversion H; reflexivity.
Qed.

Lemma get_silence_duration_spec (self : CutWindow) :
  get_silence_duration self
  = Ok match float_of_str (silence_input self) with
       | Ok silence_duration => max2 silence_duration (Finite 0)
       | Raise _ => Finite 1
       end.
Proof.
  unfold get_silence_duration.
  destruct (float_of_str (silence_input self)) as [v|e] eqn:E.
  - reflexivity.
  - apply float_of_str_raises_only_ValueError in E. subst e. reflexivity.
Qed.

Lemma get_silence_duration_returns (self : CutWindow) :
  exists g, get_silence_duration self = Ok g.
Proof. rewrite get_silence_duration_spec. eexists. reflexivity. Qed.

(** C9 fails as stated: text that is not a number gives the default of one
    second, not zero. *)
Lemma silence_invalid_text_gives_one :
  float_of_str "abc" = Raise ValueError
  /\ get_silence_duration (set_silence_input (init 30 []) "abc")
     = Ok (Finite 1)
  /\ ~ pf_eq (Finite 1) (Finite 0).
Proof.
  split; [reflexivity|]. split; [reflexivity|].
  simpl. intros H. discriminate H.
Qed.

(** C9, amended: reading the silence setting always returns a value; it is
    the default of one second when the text is not a number, zero when the
    text reads as a negative number, and the number read when that number
    is not negative.  So, for every text that does not read as NaN, the
    value is not negative. *)
Theorem silence_duration_default_or_clamped (self : CutWindow) :
  exists g,
    get_silence_duration self = Ok g
    /\ (forall e, float_of_str (silence_input self) = Raise e -> g = Finite 1)
    /\ (forall v, float_of_str (silence_input self) = Ok v ->
                  pf_gt (Finite 0) v = true -> g = Finite 0)
    /\ (forall q, float_of_str (silence_input self) = Ok (Finite q) ->
                  (0 <= q)%Q -> g = Finite q)
    /\ (float_of_str (silence_input self) <> Ok NaN -> pf_nonneg g).
Proof.
  rewrite get_silence_duration_spec.
  destruct (float_of_str (silence_input self)) as [v|e] eqn:E.
  - exists (max2 v (Finite 0)). unfold max2.
    destruct (pf_gt (Finite 0) v) eqn:G.
    + split; [reflexivity|]. split; [discriminate|].
      split; [reflexivity|].
      split.
      * intros q H Hq. inversion H; subst v. simpl in G.
        apply Qle_bool_iff in Hq. rewrite Hq in G. discriminate G.
      * intros _. simpl. apply Qle_refl.
    + split; [reflexivity|]. split; [discriminate|].
      split; [intros v' H G'; inversion H; subst v'; congruence|].
      split; [intros q H _; inversion H; reflexivity|].
      intros Hnan. destruct v as [q| | |]; simpl in *.
      * apply Qle_bool_iff.
        destruct (Qle_bool 0 q); [reflexivity|discriminate G].
      * exact I.
      * discriminate G.
      * congruence.
  - exists (Finite 1).
    split; [reflexivity|]. split; [reflexivity|].
    split; [discriminate|]. split; [discriminate|].
    intros _. simpl. discriminate.
Qed.

Lemma silence_duration_default_or_clamped_witness :
  exists g,
    get_silence_duration (set_silence_input (init 30 []) "-3") = Ok g
    /\ g = Finite 0.
Proof.
  destruct (silence_duration_default_or_clamped
              (set_silence_input (init 30 []) "-3"))
    as (g & Hg & _ & Hneg & _).
  exists g. split; [exact Hg|].
  eapply Hneg; reflexivity.
Defined.

(** ** Nothing to keep *)

Lemma gather_mp3_nothing_kept (self : CutWindow) (g : pyfloat)
  (bounds : list Q) :
  Forall (fun c => c = delete) (sections self) ->
  forall i last_time clips,
    (i + length bounds <= length (sections self))%nat ->
    gather_mp3 self g i last_time bounds clips = Ok clips.
Proof.
  intros Hdel. induction bounds as [|cut_time bounds IH];
    intros i last_time clips Hlen.
  - reflexivity.
  - simpl in *. unfold getitem.
    destruct (nth_error (sections self) i) as [c|] eqn:E.
    + assert (c = delete) as ->.
      { rewrite Forall_forall in Hdel. apply Hdel.
        eapply nth_error_In; eassumption. }
      simpl. apply IH. lia.
    + apply nth_error_None in E. lia.
Qed.

(** With no section kept, both paths gather an empty clip list, and the
    MP3-only path then calls no collaborator at all. *)
Lemma nothing_kept_empty_plan (self : CutWindow) :
  Forall (fun c => c = delete) (sections self) ->
  length (sections self) = S (length (cut_points self)) ->
  plan_mp3 self = Ok []
  /\ plan_with_background self = Ok []
  /\ forall confirm save_path,
       cut_and_join_sections_mp3 self confirm save_path = Ok [].
Proof.
  intros Hdel Hlen.
  assert (Hg : forall g, gather_mp3 self g 0 0
                           (cut_points self ++ [duration self]) [] = Ok []).
  { intros g. apply gather_mp3_nothing_kept; [exact Hdel|].
    rewrite length_app. simpl. lia. }
  destruct (get_silence_duration_returns self) as [g Eg].
  split; [|split].
  - unfold plan_mp3. rewrite Eg. simpl. apply Hg.
  - unfold plan_with_background. rewrite Eg. simpl.
    rewrite gather_paths_agree. apply Hg.
  - intros confirm save_path. unfold cut_and_join_sections_mp3.
    rewrite Eg. simpl. destruct confirm; simpl; [|reflexivity].
    rewrite Hg. reflexivity.
Qed.

(** C8, at the input where the code departs from it: with every section of
    a 30-second item set to delete and a background image imported, the
    full-video path gathers an empty clip list and hands it to
    [concatenate_audioclips] as its first call, with no warning before it;
    the MP3-only path, which tests the list first, calls nothing. *)
Theorem nothing_kept_reaches_concatenation :
  exists w,
    bind (toggle_section_choice (init 30 [10; 20]%Q) 0 false)
      (fun w => bind (toggle_section_choice w 1 false)
         (fun w => toggle_section_choice w 2 false)) = Ok w
    /\ sections w = [delete; delete; delete]
    /\ plan_with_background w = Ok []
    /\ (exists rest,
          cut_and_join_sections_with_background
            (import_background_image w "bg.png") true "out.mp4"
          = Ok (Concatenate_audioclips [] :: rest))
    /\ cut_and_join_sections_mp3 w true "out.mp3" = Ok [].
Proof.
  eexists. split; [reflexivity|]. split; [reflexivity|].
  split; [reflexivity|]. split; [|reflexivity].
  eexists. reflexivity.
Qed.

(** ** Where the gaps fall *)

(** C1, at the input where the code departs from it: with one cut point at
    10s on a 30-second item and the sections set to keep, delete, both
    loops end the clip list with a silence gap that follows the last kept
    range, so the list breaks the invariant that gaps sit only between two
    kept ranges; the plan the specification describes has no such gap. *)
Theorem gap_after_last_kept_range :
  exists w,
    toggle_section_choice (init 30 [10]%Q) 1 false = Ok w
    /\ sections w = [keep; delete]
    /\ forall g,
         gather_mp3 w g 0 0 (cut_points w ++ [duration w]) []
         = Ok [KeepRange 0 10; SilenceGap g]
         /\ gather_with_background w g 0 0 (cut_points w ++ [duration w]) []
            = Ok [KeepRange 0 10; SilenceGap g]
         /\ Spec.gaps_only_between [KeepRange 0 10; SilenceGap g] = false
         /\ Spec.build_plan [(0, 10, keep); (10, 30, delete)]%Q g
            = [KeepRange 0 10].
Proof.
  eexists. split; [reflexivity|]. split; [reflexivity|].
  intros g. repeat split; reflexivity.
Qed.

(** ** Sections derived from the cut points *)

Lemma section_loop_ranges (bounds : list Q) :
  forall i last_time,
    map (fun r => (row_start r, row_end r))
        (fst (section_loop i last_time bounds))
    = Spec.ranges_from last_time bounds.
Proof.
  induction bounds as [|c bounds IH]; intros i last_time; simpl.
  - reflexivity.
  - specialize (IH (S i) c).
    destruct (section_loop (S i) c bounds) as [rs cs]. simpl in *.
    rewrite IH. reflexivity.
Qed.

Lemma section_loop_indices (bounds : list Q) :
  forall i last_time,
    map row_index (fst (section_loop i last_time bounds))
    = seq i (length bounds).
Proof.
  induction bounds as [|c bounds IH]; intros i last_time; simpl.
  - reflexivity.
  - specialize (IH (S i) c).
    destruct (section_loop (S i) c bounds) as [rs cs]. simpl in *.
    rewrite IH. reflexivity.
Qed.

Lemma section_loop_choices (bounds : list Q) :
  forall i last_time,
    snd (section_loop i last_time bounds) = repeat keep (length bounds).
Proof.
  induction bounds as [|c bounds IH]; intros i last_time; simpl.
  - reflexivity.
  - specialize (IH (S i) c).
    destruct (section_loop (S i) c bounds) as [rs cs]. simpl in *.
    rewrite IH. reflexivity.
Qed.

Lemma init_rows (D : Q) (cps : list Q) :
  rows (init D cps) = fst (section_loop 0 0 (cps ++ [D])).
Proof.
  unfold init. destruct (section_loop 0 0 (cps ++ [D])). reflexivity.
Qed.

Lemma init_sections (D : Q) (cps : list Q) :
  sections (init D cps) = repeat keep (S (length cps)).
Proof.
  unfold init.
  pose proof (section_loop_choices (cps ++ [D]) 0%nat 0%Q) as H.
  destruct (section_loop 0 0 (cps ++ [D])). simpl in *.
  rewrite H, length_app, Nat.add_comm. reflexivity.
Qed.

Lemma init_ranges (D : Q) (cps : list Q) :
  map (fun r => (row_start r, row_end r)) (rows (init D cps))
  = Spec.derive_sections D cps.
Proof. rewrite init_rows. apply section_loop_ranges. Qed.

(** The ranges chain: each one starts where the one before it ends. *)
Lemma ranges_chain (bounds : list Q) :
  forall last i a b,
    nth_error (Spec.ranges_from last bounds) i = Some a ->
    nth_error (Spec.ranges_from last bounds) (S i) = Some b ->
    snd a = fst b.
Proof.
  induction bounds as [|c bounds IH]; intros last i a b Ha Hb.
  - destruct i; discriminate Ha.
  - destruct i as [|i]; simpl in *.
    + inversion Ha; subst a. destruct bounds; simpl in *.
      * discriminate Hb.
      * inversion Hb; subst b. reflexivity.
    + eapply IH; eassumption.
Qed.

Lemma ranges_length (bounds : list Q) :
  forall last, length (Spec.ranges_from last bounds) = length bounds.
Proof. induction bounds; intros; simpl; [reflexivity|f_equal; auto]. Qed.

Lemma ranges_last (bounds : list Q) :
  forall last D,
    nth_error (Spec.ranges_from last (bounds ++ [D])) (length bounds)
    = Some (List.last (last :: bounds) 0%Q, D).
Proof.
  induction bounds as [|c bounds IH]; intros last D.
  - reflexivity.
  - simpl app. simpl length. cbn [Spec.ranges_from nth_error].
    rewrite IH. reflexivity.
Qed.

(** Every time between the start of the first range and the end of the
    last one lies in one of the ranges. *)
Lemma ranges_cover (bounds : list Q) :
  forall last D t,
    (last <= t)%Q -> (t <= D)%Q ->
    exists a, In a (Spec.ranges_from last (bounds ++ [D]))
              /\ (fst a <= t)%Q /\ (t <= snd a)%Q.
Proof.
  induction bounds as [|c bounds IH]; intros last D t Hlo Hhi.
  - exists (last, D). simpl. auto.
  - simpl. destruct (Qlt_le_dec c t) as [Hlt|Hle].
    + destruct (IH c D t (Qlt_le_weak _ _ Hlt) Hhi) as (a & Ha & H1 & H2).
      exists a. auto.
    + exists (last, c). simpl. auto.
Qed.

(** The lengths of the ranges telescope. *)
Lemma ranges_total (bounds : list Q) :
  forall last D,
    (fold_right (fun a acc => (snd a - fst a) + acc) 0
       (Spec.ranges_from last (bounds ++ [D])) == D - last)%Q.
Proof.
  induction bounds as [|c bounds IH]; intros last D; simpl.
  - ring.
  - rewrite IH. ring.
Qed.

Lemma ranges_ascending (bounds : list Q) :
  forall last D a,
    Spec.ascending_from last bounds D ->
    In a (Spec.ranges_from last (bounds ++ [D])) ->
    (last <= fst a)%Q /\ (fst a <= snd a)%Q /\ (snd a <= D)%Q.
Proof.
  induction bounds as [|c bounds IH]; intros last D a Hasc Hin; simpl in *.
  - destruct Hin as [<-|[]]. simpl. repeat split; auto; apply Qle_refl.
  - destruct Hasc as [Hc Hasc]. destruct Hin as [<-|Hin].
    + simpl. repeat split; auto; try apply Qle_refl.
      clear -Hasc. revert c Hasc.
      induction bounds as [|c' bounds IH]; intros c Hasc; simpl in *.
      * exact Hasc.
      * destruct Hasc as [H1 H2]. eapply Qle_trans; [exact H1|auto].
    + destruct (IH c D a Hasc Hin) as (H1 & H2 & H3).
      repeat split; auto. eapply Qle_trans; eassumption.
Qed.

Lemma nth_error_rows_range (rs : list section_row) (i : nat) (r : section_row) :
  nth_error rs i = Some r ->
  nth_error (map (fun r => (row_start r, row_end r)) rs) i
  = Some (row_start r, row_end r).
Proof. intros H. rewrite nth_error_map, H. reflexivity. Qed.

Lemma rows_total (rs : list section_row) :
  fold_right (fun r acc => (row_end r - row_start r) + acc)%Q 0%Q rs
  = fold_right (fun a acc => (snd a - fst a) + acc)%Q 0%Q
      (map (fun r => (row_start r, row_end r)) rs).
Proof. induction rs as [|r rs IH]; simpl; [reflexivity|rewrite IH; reflexivity]. Qed.

(** C2 fails as stated: the cut points are taken in the order given and as
    they are, so a cut point past the duration gives a section that ends
    after it, and cut points out of order give a section that ends before
    it starts; such sections do not cover [[0, D]] exactly. *)
Lemma unordered_cut_points_break_cover :
  map (fun r => (row_start r, row_end r)) (rows (init 30 [40]%Q))
  = [(0, 40); (40, 30)]%Q
  /\ ~ (40 <= 30)%Q
  /\ map (fun r => (row_start r, row_end r)) (rows (init 30 [20; 10]%Q))
     = [(0, 20); (20, 10); (10, 30)]%Q
  /\ ~ (20 <= 10)%Q.
Proof.
  split; [reflexivity|]. split; [intros H; apply H; reflexivity|].
  split; [reflexivity|]. intros H; apply H; reflexivity.
Qed.

(** C2, amended: for every duration [D] and cut-point sequence, the section
    list the dialog derives has one section more than there are cut points
    (and as many keep/delete entries); the first section starts at 0, each
    section ends where the next one starts, the last one ends at [D]; with
    no cut point there is the single section from 0 to [D]; every time of
    [[0, D]] lies in a section and the section lengths add up to [D].  When
    the cut points ascend within [[0, D]], every section is a range inside
    [[0, D]], so that together they cover it exactly. *)
Theorem sections_contiguous_and_exhaustive (D : Q) (cps : list Q) :
  let rs := rows (init D cps) in
  length rs = S (length cps)
  /\ length (sections (init D cps)) = S (length cps)
  /\ (exists r, nth_error rs 0 = Some r /\ row_start r = 0%Q)
  /\ (forall i r r',
        nth_error rs i = Some r -> nth_error rs (S i) = Some r' ->
        row_end r = row_start r')
  /\ (exists r, nth_error rs (length cps) = Some r /\ row_end r = D)
  /\ (cps = [] -> map (fun r => (row_start r, row_end r)) rs = [(0%Q, D)])
  /\ (forall t, (0 <= t)%Q -> (t <= D)%Q ->
        exists r, In r rs /\ (row_start r <= t)%Q /\ (t <= row_end r)%Q)
  /\ (fold_right (fun r acc => (row_end r - row_start r) + acc) 0 rs == D)%Q
  /\ (Spec.ascending_from 0 cps D ->
      forall r, In r rs ->
        (0 <= row_start r)%Q /\ (row_start r <= row_end r)%Q
        /\ (row_end r <= D)%Q).
Proof.
  intros rs.
  pose proof (init_ranges D cps) as Hr. fold rs in Hr.
  unfold Spec.derive_sections in Hr.
  assert (Hlen : length rs = S (length cps)).
  { rewrite <- (length_map (fun r => (row_start r, row_end r))), Hr.
    rewrite ranges_length, length_app, Nat.add_comm. reflexivity. }
  split; [exact Hlen|].
  split; [rewrite init_sections; apply repeat_length|].
  split.
  { destruct rs as [|r rs']; [discriminate Hlen|].
    exists r. split; [reflexivity|].
    destruct cps; simpl in Hr; inversion Hr; reflexivity. }
  split.
  { intros i r r' Hi Hi'.
    apply nth_error_rows_range in Hi. apply nth_error_rows_range in Hi'.
    rewrite Hr in Hi, Hi'.
    apply (ranges_chain _ _ _ _ _ Hi Hi'). }
  split.
  { destruct (nth_error rs (length cps)) as [r|] eqn:E.
    - exists r. split; [reflexivity|].
      apply nth_error_rows_range in E. rewrite Hr, ranges_last in E.
      inversion E. reflexivity.
    - apply nth_error_None in E. lia. }
  split.
  { intros ->. exact Hr. }
  split.
  { intros t Hlo Hhi.
    destruct (ranges_cover cps 0%Q D t Hlo Hhi) as (a & Ha & H1 & H2).
    rewrite <- Hr in Ha. apply in_map_iff in Ha.
    destruct Ha as (r & <- & Hin). exists r. auto. }
  split.
  { rewrite rows_total, Hr, ranges_total. ring. }
  intros Hasc r Hin.
  apply (ranges_ascending cps 0%Q D (row_start r, row_end r) Hasc).
  rewrite <- Hr. apply in_map_iff. exists r. auto.
Qed.

Lemma sections_contiguous_and_exhaustive_witness :
  (exists r, In r (rows (init 30 [10; 20]%Q))
             /\ (row_start r <= 15)%Q /\ (15 <= row_end r)%Q)
  /\ (forall r, In r (rows (init 30 [10; 20]%Q)) ->
        (0 <= row_start r)%Q /\ (row_start r <= row_end r)%Q
        /\ (row_end r <= 30)%Q).
Proof.
  destruct (sections_contiguous_and_exhaustive 30 [10; 20]%Q)
    as (_ & _ & _ & _ & _ & _ & Hcover & _ & Hasc).
  split.
  - apply Hcover; discriminate.
  - apply Hasc. simpl. repeat split; discriminate.
Defined.

(** ** Adding and undoing cut points *)

Import VideoCutter.

Lemma del_at_last {A} (l : list A) (a : A) :
  del_at (l ++ [a]) (length l) = l.
Proof.
  unfold del_at. induction l as [|b l IH]; simpl.
  - reflexivity.
  - f_equal. exact IH.
Qed.

Lemma remove_last_added_marker (m : MarkerBar) (t : Q) :
  in_range t (mb_duration m) = true ->
  markers
    (remove_marker (add_marker m t)
       (Z.of_nat (length (markers (add_marker m t))) - 1))
  = markers m.
Proof.
  intros H. unfold add_marker. rewrite H. unfold remove_marker. simpl.
  rewrite length_app. simpl.
  replace (Z.of_nat (length (markers m) + 1) - 1)
    with (Z.of_nat (length (markers m))) by lia.
  destruct ((0 <=? Z.of_nat (length (markers m)))
            && (Z.of_nat (length (markers m))
                <? Z.of_nat (length (markers m) + 1))) eqn:G.
  - simpl. rewrite Nat2Z.id. apply del_at_last.
  - apply andb_false_iff in G. destruct G as [G|G].
    + apply Z.leb_gt in G. lia.
    + apply Z.ltb_ge in G. lia.
Qed.

Lemma in_range_iff (t d : Q) :
  in_range t d = true <-> (0 <= t)%Q /\ (t <= d)%Q.
Proof.
  unfold in_range. rewrite andb_true_iff, !Qle_bool_iff. reflexivity.
Qed.

Lemma add_manual_marker_in_range (self : VideoEditorApp) (text : string)
  (d t : Q) :
  clip self = Some d ->
  parse_timecode text = Ok (Some t) ->
  in_range t d = true ->
  add_manual_marker self text
  = Ok (set_marker_bar
          (log (set_cut_points self (cut_points self ++ [t]))
               ("Marker added at " ++ convert_seconds_to_timecode t))
          (add_marker (marker_bar self) t)).
Proof.
  intros Hclip Hparse Hr. unfold add_manual_marker. rewrite Hparse. simpl.
  unfold in_range in Hr. apply andb_true_iff in Hr. destruct Hr as [H0 H1].
  rewrite H0, Hclip, H1. reflexivity.
Qed.

Lemma add_manual_marker_out_of_range (self : VideoEditorApp) (text : string)
  (d t : Q) :
  clip self = Some d ->
  parse_timecode text = Ok (Some t) ->
  in_range t d = false ->
  add_manual_marker self text = Ok (log self "Invalid timecode.").
Proof.
  intros Hclip Hparse Hr. unfold add_manual_marker. rewrite Hparse. simpl.
  unfold in_range in Hr.
  destruct (Qle_bool 0 t); [|reflexivity].
  rewrite Hclip. simpl in Hr. rewrite Hr. reflexivity.
Qed.

(** C4 fails as stated: a cut point that is already present is accepted
    again, and a cut point earlier than the last one goes to the end of the
    sequence, which is then out of order. *)
Lemma duplicate_and_unsorted_cut_points_accepted :
  let s0 := load_video VideoCutter.init (Some 30%Q) in
  (exists s1 s2,
      add_manual_marker s0 "00:10" = Ok s1
      /\ add_manual_marker s1 "00:10" = Ok s2
      /\ VideoCutter.cut_points s1 = [10%Q]
      /\ VideoCutter.cut_points s2 = [10%Q; 10%Q])
  /\ (exists s1 s2,
         add_manual_marker s0 "00:20" = Ok s1
         /\ add_manual_marker s1 "00:10" = Ok s2
         /\ VideoCutter.cut_points s2 = [20%Q; 10%Q]
         /\ ~ (20 <= 10)%Q)
  /\ VideoCutter.cut_points (add_cut_point (add_cut_point s0 10000) 10000)
     = [(10000 / 1000)%Q; (10000 / 1000)%Q].
Proof.
  split; [|split].
  - eexists. eexists. repeat split; reflexivity.
  - eexists. eexists. split; [reflexivity|]. split; [reflexivity|].
    split; [reflexivity|]. intros H. apply H. reflexivity.
  - reflexivity.
Qed.

(** C4, amended: with a clip of duration [d] loaded, a manual marker whose
    timecode reads as [t] is refused when [t] is outside [[0, d]]: the
    state is left as it was, but for the line "Invalid timecode." in the
    text box, and the same happens when the timecode does not parse.  When
    [t] is within [[0, d]] it is appended at the end of the cut-point
    sequence, whether or not it is already there and whatever the order;
    so is a cut point taken at a player position within [[0, d]]. *)
Theorem add_cut_point_appends (self : VideoEditorApp) (d : Q) :
  clip self = Some d ->
  (forall text t,
      parse_timecode text = Ok (Some t) ->
      ~ ((0 <= t)%Q /\ (t <= d)%Q) ->
      add_manual_marker self text = Ok (log self "Invalid timecode."))
  /\ (forall text,
        parse_timecode text = Ok None ->
        add_manual_marker self text = Ok (log self "Invalid timecode."))
  /\ (forall text t,
        parse_timecode text = Ok (Some t) ->
        (0 <= t)%Q -> (t <= d)%Q ->
        exists self',
          add_manual_marker self text = Ok self'
          /\ VideoCutter.cut_points self'
             = VideoCutter.cut_points self ++ [t])
  /\ (forall player_time,
        let t := (inject_Z player_time / 1000)%Q in
        (0 <= t)%Q -> (t <= d)%Q ->
        VideoCutter.cut_points (add_cut_point self player_time)
        = VideoCutter.cut_points self ++ [t]).
Proof.
  intros Hclip. split; [|split; [|split]].
  - intros text t Hparse Hout.
    apply (add_manual_marker_out_of_range self text d t Hclip Hparse).
    destruct (in_range t d) eqn:E; [|reflexivity].
    apply in_range_iff in E. contradiction.
  - intros text Hparse. unfold add_manual_marker. rewrite Hparse.
    reflexivity.
  - intros text t Hparse H0 H1. eexists. split.
    + apply (add_manual_marker_in_range self text d t Hclip Hparse).
      apply in_range_iff. auto.
    + reflexivity.
  - intros player_time t _ _. unfold add_cut_point. rewrite Hclip.
    reflexivity.
Qed.

Lemma add_cut_point_appends_witness :
  add_manual_marker (load_video VideoCutter.init (Some 30%Q)) "00:35"
  = Ok (log (load_video VideoCutter.init (Some 30%Q)) "Invalid timecode.").
Proof.
  destruct (add_cut_point_appends
              (load_video VideoCutter.init (Some 30%Q)) 30%Q eq_refl)
    as (Hout & _).
  apply (Hout "00:35"%string 35%Q).
  - reflexivity.
  - intros [_ H]. apply H. reflexivity.
Defined.

Lemma undo_after_append (self : VideoEditorApp) (t : Q) (line : string) :
  in_range t (VideoCutter.mb_duration (VideoCutter.marker_bar self)) = true ->
  let added :=
    set_marker_bar
      (log (set_cut_points self (VideoCutter.cut_points self ++ [t])) line)
      (VideoCutter.add_marker (VideoCutter.marker_bar self) t) in
  let undone := undo_last_marker added in
  VideoCutter.cut_points undone = VideoCutter.cut_points self
  /\ VideoCutter.markers (VideoCutter.marker_bar undone)
     = VideoCutter.markers (VideoCutter.marker_bar self)
  /\ clip undone = clip self
  /\ VideoCutter.duration undone = VideoCutter.duration self
  /\ VideoCutter.mb_duration (VideoCutter.marker_bar undone)
     = VideoCutter.mb_duration (VideoCutter.marker_bar self)
  /\ snd (open_cut_window undone) = snd (open_cut_window self).
Proof.
  intros Hr added undone.
  assert (Hcp : VideoCutter.cut_points undone = VideoCutter.cut_points self).
  { unfold undone, undo_last_marker, added. simpl.
    rewrite rev_app_distr. simpl. apply removelast_last. }
  assert (Hmk : VideoCutter.markers (VideoCutter.marker_bar undone)
                = VideoCutter.markers (VideoCutter.marker_bar self)).
  { unfold undone, undo_last_marker, added. simpl.
    rewrite rev_app_distr. simpl.
    apply remove_last_added_marker. exact Hr. }
  assert (Hcl : clip undone = clip self).
  { unfold undone, undo_last_marker, added. simpl.
    rewrite rev_app_distr. reflexivity. }
  assert (Hd : VideoCutter.duration undone = VideoCutter.duration self).
  { unfold undone, undo_last_marker, added. simpl.
    rewrite rev_app_distr. reflexivity. }
  repeat split; auto.
  - unfold undone, undo_last_marker, added. simpl.
    rewrite rev_app_distr. simpl.
    unfold VideoCutter.remove_marker, VideoCutter.add_marker.
    rewrite Hr. simpl.
    match goal with |- context [if ?b then _ else _] => destruct b end;
      reflexivity.
  - unfold open_cut_window. rewrite Hcl, Hcp, Hd.
    destruct (clip self); reflexivity.
Qed.

(** C7: with a clip of duration [d] loaded (which sets the duration of the
    marker bar as well), adding a cut point at a valid
    time (a manual marker whose timecode reads as [t] in [[0, d]], or the
    player position) and then undoing the last marker gives back the same
    cut-point sequence, the same markers, and so the same section states in
    the dialog opened next; only the text box has two more lines.  With no
    cut point, undoing changes nothing and reports "No markers to undo." *)
Theorem add_then_undo_restores (self : VideoEditorApp) (d : Q) :
  clip self = Some d ->
  VideoCutter.mb_duration (VideoCutter.marker_bar self) = d ->
  (forall text t,
      parse_timecode text = Ok (Some t) -> (0 <= t)%Q -> (t <= d)%Q ->
      exists added,
        add_manual_marker self text = Ok added
        /\ VideoCutter.cut_points added = VideoCutter.cut_points self ++ [t]
        /\ let undone := undo_last_marker added in
           VideoCutter.cut_points undone = VideoCutter.cut_points self
           /\ VideoCutter.markers (VideoCutter.marker_bar undone)
              = VideoCutter.markers (VideoCutter.marker_bar self)
           /\ snd (open_cut_window undone) = snd (open_cut_window self))
  /\ (forall player_time,
        let t := (inject_Z player_time / 1000)%Q in
        (0 <= t)%Q -> (t <= d)%Q ->
        let undone := undo_last_marker (add_cut_point self player_time) in
        VideoCutter.cut_points undone = VideoCutter.cut_points self
        /\ VideoCutter.markers (VideoCutter.marker_bar undone)
           = VideoCutter.markers (VideoCutter.marker_bar self)
        /\ snd (open_cut_window undone) = snd (open_cut_window self))
  /\ (VideoCutter.cut_points self = [] ->
      undo_last_marker self = log self "No markers to undo.").
Proof.
  intros Hclip Hbar. split; [|split].
  - intros text t Hparse H0 H1.
    assert (Hr : in_range t d = true) by (apply in_range_iff; auto).
    eexists. split.
    + apply (add_manual_marker_in_range self text d t Hclip Hparse Hr).
    + split; [reflexivity|].
      rewrite <- Hbar in Hr.
      destruct (undo_after_append self t
                  ("Marker added at " ++ convert_seconds_to_timecode t) Hr)
        as (A & B & _ & _ & _ & C).
      repeat split; assumption.
  - intros player_time t H0 H1.
    assert (Hr : in_range t d = true) by (apply in_range_iff; auto).
    rewrite <- Hbar in Hr.
    unfold add_cut_point. rewrite Hclip.
    destruct (undo_after_append self t
                (convert_seconds_to_timecode t) Hr)
      as (A & B & _ & _ & _ & C).
    repeat split; assumption.
  - intros Hnil. unfold undo_last_marker. rewrite Hnil. reflexivity.
Qed.

Lemma add_then_undo_restores_witness :
  let s0 := add_cut_point (load_video VideoCutter.init (Some 30%Q)) 5000 in
  (exists added,
      add_manual_marker s0 "00:10" = Ok added
      /\ VideoCutter.cut_points added = [(5000 / 1000)%Q; 10%Q]
      /\ VideoCutter.cut_points (undo_last_marker added)
         = [(5000 / 1000)%Q])
  /\ undo_last_marker (load_video VideoCutter.init (Some 30%Q))
     = log (load_video VideoCutter.init (Some 30%Q)) "No markers to undo.".
Proof.
  intros s0. split.
  - destruct (add_then_undo_restores s0 30%Q eq_refl eq_refl)
      as (Hadd & _ & _).
    destruct (Hadd "00:10"%string 10%Q) as (added & E & Hcp & Hundo & _).
    + reflexivity.
    + discriminate.
    + discriminate.
    + exists added. repeat split; assumption.
  - destruct (add_then_undo_restores
                (load_video VideoCutter.init (Some 30%Q)) 30%Q
                eq_refl eq_refl) as (_ & _ & Hempty).
    apply Hempty. reflexivity.
Defined.

(** ** Timecodes *)

Lemma digit_is_not_colon (c : ascii) :
  is_digit c = true -> Ascii.eqb c colon = false.
Proof.
  destruct c as [[] [] [] [] [] [] [] []]; intros H;
    solve [reflexivity | discriminate H].
Qed.

Lemma digit_is_not_space (c : ascii) :
  is_digit c = true -> is_space c = false.
Proof.
  destruct c as [[] [] [] [] [] [] [] []]; intros H;
    solve [reflexivity | discriminate H].
Qed.

Lemma counts_down_spec (lo hi k : nat) :
  In k (counts_down lo hi) <-> (lo <= k <= hi)%nat.
Proof.
  unfold counts_down. rewrite <- in_rev, in_seq. lia.
Qed.

Lemma re_match_digits (lo hi : nat) (p : list re_item) (s : list ascii) :
  re_match (Digits lo hi :: p) s = true
  <-> exists d rest,
        s = d ++ rest /\ Spec.field lo hi d /\ re_match p rest = true.
Proof.
  cbn [re_match]. rewrite existsb_exists. split.
  - intros (k & Hk & H). apply counts_down_spec in Hk.
    apply andb_true_iff in H. destruct H as [H Hp].
    apply andb_true_iff in H. destruct H as [Hl Hd].
    apply Nat.eqb_eq in Hl.
    exists (firstn k s), (skipn k s). split; [|split].
    + symmetry. apply firstn_skipn.
    + split; [rewrite Hl; exact Hk|exact Hd].
    + exact Hp.
  - intros (d & rest & -> & [Hlen Hd] & Hp).
    exists (length d). split; [apply counts_down_spec; exact Hlen|].
    rewrite firstn_app, Nat.sub_diag, firstn_all. simpl firstn.
    rewrite app_nil_r, Nat.eqb_refl, Hd. simpl.
    rewrite skipn_app, Nat.sub_diag, skipn_all. simpl. exact Hp.
Qed.

Lemma re_match_lit (c : ascii) (p : list re_item) (s : list ascii) :
  re_match (Lit c :: p) s = true
  <-> exists rest, s = c :: rest /\ re_match p rest = true.
Proof.
  cbn [re_match]. split.
  - destruct s as [|d s']; [discriminate|]. intros H.
    apply andb_true_iff in H. destruct H as [H Hp].
    apply Ascii.eqb_eq in H. subst d. exists s'. auto.
  - intros (rest & -> & Hp). rewrite Ascii.eqb_refl. exact Hp.
Qed.

Lemma re_match_end (s : list ascii) :
  re_match [] s = true <-> s = [] \/ s = [newline].
Proof.
  cbn [re_match]. unfold at_end. split.
  - destruct s as [|c [|d s']]; auto; [|discriminate].
    intros H. apply Ascii.eqb_eq in H. subst c. auto.
  - intros [->| ->]; reflexivity.
Qed.

(** *** Stripped text has no blank at either end *)

Lemma lstrip_head (s : list ascii) (c : ascii) (r : list ascii) :
  lstrip s = c :: r -> is_space c = false.
Proof.
  induction s as [|a s IH]; simpl; [discriminate|].
  destruct (is_space a) eqn:E; [exact IH|].
  intros H. inversion H; subst. exact E.
Qed.

Lemma strip_last (s l : list ascii) (c : ascii) :
  strip s = l ++ [c] -> is_space c = false.
Proof.
  unfold strip, rstrip. intros H.
  apply (f_equal (@rev ascii)) in H.
  rewrite rev_involutive, rev_app_distr in H. simpl in H.
  eapply lstrip_head. exact H.
Qed.

Lemma lstrip_id (c : ascii) (s : list ascii) :
  is_space c = false -> lstrip (c :: s) = c :: s.
Proof. intros H. simpl. rewrite H. reflexivity. Qed.

Lemma strip_id (c d : ascii) (s : list ascii) :
  is_space c = false -> is_space d = false ->
  strip (c :: s ++ [d]) = c :: s ++ [d].
Proof.
  intros Hc Hd. unfold strip, rstrip. rewrite (lstrip_id _ _ Hc).
  replace (rev (c :: s ++ [d])) with (d :: rev (c :: s))
    by (change (c :: s ++ [d]) with ((c :: s) ++ [d]);
        rewrite rev_app_distr; reflexivity).
  rewrite (lstrip_id _ _ Hd).
  replace (rev (d :: rev (c :: s))) with (rev (rev (c :: s)) ++ [d])
    by reflexivity.
  rewrite rev_involutive. reflexivity.
Qed.

(** *** Splitting at colons *)

Lemma split_field (d rest : list ascii) :
  forallb is_digit d = true ->
  split colon (d ++ colon :: rest) = d :: split colon rest.
Proof.
  induction d as [|c d IH]; intros H; simpl in *.
  - reflexivity.
  - apply andb_true_iff in H. destruct H as [Hc Hd].
    rewrite (digit_is_not_colon _ Hc), (IH Hd). reflexivity.
Qed.

Lemma split_last_field (d : list ascii) :
  forallb is_digit d = true -> split colon d = [d].
Proof.
  induction d as [|c d IH]; intros H; simpl in *.
  - reflexivity.
  - apply andb_true_iff in H. destruct H as [Hc Hd].
    rewrite (digit_is_not_colon _ Hc), (IH Hd). reflexivity.
Qed.

Lemma int_of_field (lo hi : nat) (d : list ascii) :
  (1 <= lo)%nat -> Spec.field lo hi d -> int_of_str d = Ok (digits_value d).
Proof.
  intros Hlo [Hlen Hd]. unfold int_of_str. rewrite Hd.
  destruct d; [simpl in Hlen; lia|reflexivity].
Qed.

Lemma split_nonempty (s : list ascii) : split colon s <> [].
Proof.
  destruct s as [|c s]; simpl; [discriminate|].
  destruct (Ascii.eqb c colon); [discriminate|].
  destruct (split colon s); discriminate.
Qed.

Lemma split_single_inv (s f : list ascii) : split colon s = [f] -> s = f.
Proof.
  revert f. induction s as [|c s IH]; intros f H; simpl in H.
  - inversion H. reflexivity.
  - destruct (Ascii.eqb c colon).
    + inversion H as [[Hf Hs]]. destruct (split_nonempty _ Hs).
    + destruct (split colon s) as [|g gs] eqn:E.
      * destruct (split_nonempty _ E).
      * inversion H; subst. f_equal. apply IH. reflexivity.
Qed.

Lemma split_cons_inv (s f g : list ascii) (fs : list (list ascii)) :
  split colon s = f :: g :: fs ->
  exists rest, s = f ++ colon :: rest /\ split colon rest = g :: fs.
Proof.
  revert f. induction s as [|c s IH]; intros f H; simpl in H.
  - discriminate H.
  - destruct (Ascii.eqb c colon) eqn:Ec.
    + apply Ascii.eqb_eq in Ec. subst c. inversion H; subst.
      exists s. auto.
    + destruct (split colon s) as [|f' fs'] eqn:E.
      * discriminate H.
      * inversion H; subst.
        destruct (IH f' eq_refl) as (rest & -> & Hr).
        exists rest. auto.
Qed.

(** On text that does not end in a blank, a pattern of colon-separated
    numeric fields matches exactly when the text splits at its colons into
    fields of those widths. *)
Lemma re_match_fields (w : nat * nat) (widths : list (nat * nat)) :
  forall s,
    (forall l c, s = l ++ [c] -> is_space c = false) ->
    (re_match (Spec.fields_pattern (w :: widths)) s = true
     <-> Forall2 (fun w f => Spec.field (fst w) (snd w) f)
           (w :: widths) (split colon s)).
Proof.
  revert w. induction widths as [|w2 widths IH]; intros [lo hi] s Hs.
  - cbn [Spec.fields_pattern]. rewrite re_match_digits. split.
    + intros (d & rest & -> & Hd & Hend).
      apply re_match_end in Hend. destruct Hend as [->| ->].
      * rewrite app_nil_r. rewrite (split_last_field d (proj2 Hd)).
        constructor; [exact Hd|constructor].
      * specialize (Hs d newline eq_refl). discriminate Hs.
    + intros H. inversion H as [|? f ? fs Hf Hfs Ew Esplit]; subst.
      inversion Hfs; subst. symmetry in Esplit.
      apply split_single_inv in Esplit. subst f.
      exists s, []. rewrite app_nil_r. repeat split; try apply Hf.
  - cbn [Spec.fields_pattern]. rewrite re_match_digits. split.
    + intros (d & rest & -> & Hd & Hlit).
      apply re_match_lit in Hlit. destruct Hlit as (rest' & -> & Hp).
      rewrite (split_field d rest' (proj2 Hd)).
      constructor; [exact Hd|].
      apply IH; [|exact Hp].
      intros l c E. apply (Hs (d ++ colon :: l) c).
      rewrite E, <- app_assoc. reflexivity.
    + intros H. inversion H as [|? f ? fs Hf Hfs Ew Esplit]; subst.
      inversion Hfs as [|? g ? gs Hg Hgs Ew' Efs]; subst.
      symmetry in Esplit.
      destruct (split_cons_inv _ _ _ _ Esplit) as (rest & -> & Hr).
      exists f, (colon :: rest). split; [reflexivity|]. split; [exact Hf|].
      apply re_match_lit. exists rest. split; [reflexivity|].
      apply IH.
      * intros l c E. apply (Hs (f ++ colon :: l) c).
        rewrite E, <- app_assoc. reflexivity.
      * rewrite Hr. exact Hfs.
Qed.

Lemma join_split (s : list ascii) : join colon (split colon s) = s.
Proof.
  induction s as [|c s IH]; simpl.
  - reflexivity.
  - destruct (Ascii.eqb c colon) eqn:Ec.
    + apply Ascii.eqb_eq in Ec. subst c.
      destruct (split colon s) as [|f fs] eqn:E.
      * destruct (split_nonempty _ E).
      * cbn [join app]. cbn [join] in IH. rewrite IH. reflexivity.
    + destruct (split colon s) as [|f fs] eqn:E.
      * destruct (split_nonempty _ E).
      * cbn [join] in *. simpl. rewrite IH. reflexivity.
Qed.

(** What [parse_timecode] returns, from the fields its text splits into. *)
Lemma parse_timecode_by_fields (text : string) :
  let s := strip (chars text) in
  let ok ws := Forall2 (fun w f => Spec.field (fst w) (snd w) f)
                 ws (split colon s) in
  (ok Spec.widths_hh_mm_ss_ms /\
   exists h m sec ms,
     split colon s = [h; m; sec; ms]
     /\ parse_timecode text
        = Ok (Some (Spec.seconds_of h m sec + Spec.millis_of ms)%Q))
  \/ (ok Spec.widths_hh_mm_ss /\
      exists h m sec,
        split colon s = [h; m; sec]
        /\ parse_timecode text = Ok (Some (Spec.seconds_of h m sec)))
  \/ (ok Spec.widths_mm_ss_ms /\
      exists m sec ms,
        split colon s = [m; sec; ms]
        /\ parse_timecode text
           = Ok (Some (inject_Z (digits_value m * 60 + digits_value sec)
                       + Spec.millis_of ms)%Q))
  \/ (ok Spec.widths_mm_ss /\
      exists m sec,
        split colon s = [m; sec]
        /\ parse_timecode text
           = Ok (Some (inject_Z (digits_value m * 60 + digits_value sec))))
  \/ (~ ok Spec.widths_hh_mm_ss_ms /\ ~ ok Spec.widths_hh_mm_ss
      /\ ~ ok Spec.widths_mm_ss_ms /\ ~ ok Spec.widths_mm_ss
      /\ parse_timecode text = Ok None).
Proof.
  intros s ok.
  assert (Hs : forall l c, s = l ++ [c] -> is_space c = false).
  { intros l c E. apply (strip_last (chars text) l c). exact E. }
  pose proof (re_match_fields (1, 2)%nat [(2, 2); (2, 2); (3, 3)]%nat s Hs)
    as R1.
  pose proof (re_match_fields (1, 2)%nat [(2, 2); (2, 2)]%nat s Hs) as R2.
  pose proof (re_match_fields (1, 2)%nat [(2, 2); (3, 3)]%nat s Hs) as R3.
  pose proof (re_match_fields (1, 2)%nat [(2, 2)]%nat s Hs) as R4.
  change (Spec.fields_pattern _) with re_hh_mm_ss_ms in R1.
  change (Spec.fields_pattern _) with re_hh_mm_ss in R2.
  change (Spec.fields_pattern _) with re_mm_ss_ms in R3.
  change (Spec.fields_pattern _) with re_mm_ss in R4.
  unfold parse_timecode. fold s. unfold int_fields.
  destruct (re_match re_hh_mm_ss_ms s) eqn:E1.
  { left. assert (H : ok Spec.widths_hh_mm_ss_ms) by (apply R1; reflexivity).
    split; [exact H|]. unfold ok, Spec.widths_hh_mm_ss_ms in H.
    destruct (split colon s) as [|h [|m [|sec [|ms [|x fs]]]]];
      try solve [exfalso; invert_fields].
    exists h, m, sec, ms. split; [reflexivity|].
    inversion H as [|? ? ? ? Fh H2]; subst.
    inversion H2 as [|? ? ? ? Fm H3]; subst.
    inversion H3 as [|? ? ? ? Fs H4]; subst.
    inversion H4 as [|? ? ? ? Fms H5]; subst.
    cbn [mapM].
    rewrite (int_of_field _ _ h (le_n 1) Fh).
    rewrite (int_of_field _ _ m (le_S _ _ (le_n 1)) Fm).
    rewrite (int_of_field _ _ sec (le_S _ _ (le_n 1)) Fs).
    rewrite (int_of_field 3 3 ms) by (auto; lia).
    reflexivity. }
  right.
  destruct (re_match re_hh_mm_ss s) eqn:E2.
  { left. assert (H : ok Spec.widths_hh_mm_ss) by (apply R2; reflexivity).
    split; [exact H|]. unfold ok, Spec.widths_hh_mm_ss in H.
    destruct (split colon s) as [|h [|m [|sec [|x fs]]]];
      try solve [exfalso; invert_fields].
    exists h, m, sec. split; [reflexivity|].
    inversion H as [|? ? ? ? Fh H2]; subst.
    inversion H2 as [|? ? ? ? Fm H3]; subst.
    inversion H3 as [|? ? ? ? Fs H4]; subst.
    cbn [mapM].
    rewrite (int_of_field _ _ h (le_n 1) Fh).
    rewrite (int_of_field _ _ m (le_S _ _ (le_n 1)) Fm).
    rewrite (int_of_field _ _ sec (le_S _ _ (le_n 1)) Fs).
    reflexivity. }
  right.
  destruct (re_match re_mm_ss_ms s) eqn:E3.
  { left. assert (H : ok Spec.widths_mm_ss_ms) by (apply R3; reflexivity).
    split; [exact H|]. unfold ok, Spec.widths_mm_ss_ms in H.
    destruct (split colon s) as [|m [|sec [|ms [|x fs]]]];
      try solve [exfalso; invert_fields].
    exists m, sec, ms. split; [reflexivity|].
    inversion H as [|? ? ? ? Fm H2]; subst.
    inversion H2 as [|? ? ? ? Fs H3]; subst.
    inversion H3 as [|? ? ? ? Fms H4]; subst.
    cbn [mapM].
    rewrite (int_of_field _ _ m (le_n 1) Fm).
    rewrite (int_of_field _ _ sec (le_S _ _ (le_n 1)) Fs).
    rewrite (int_of_field 3 3 ms) by (auto; lia).
    reflexivity. }
  right.
  destruct (re_match re_mm_ss s) eqn:E4.
  { left. assert (H : ok Spec.widths_mm_ss) by (apply R4; reflexivity).
    split; [exact H|]. unfold ok, Spec.widths_mm_ss in H.
    destruct (split colon s) as [|m [|sec [|x fs]]];
      try solve [exfalso; invert_fields].
    exists m, sec. split; [reflexivity|].
    inversion H as [|? ? ? ? Fm H2]; subst.
    inversion H2 as [|? ? ? ? Fs H3]; subst.
    cbn [mapM].
    rewrite (int_of_field _ _ m (le_n 1) Fm).
    rewrite (int_of_field _ _ sec (le_S _ _ (le_n 1)) Fs).
    reflexivity. }
  right. repeat split; try reflexivity; intros H.
  - apply R1 in H. discriminate H.
  - apply R2 in H. discriminate H.
  - apply R3 in H. discriminate H.
  - apply R4 in H. discriminate H.
Qed.

(** A text of one of the four shapes splits into the fields of that shape. *)
Lemma timecode_fields (s : list ascii) (v : Q) :
  Spec.timecode s v ->
  let ok ws := Forall2 (fun w f => Spec.field (fst w) (snd w) f)
                 ws (split colon s) in
  (ok Spec.widths_hh_mm_ss_ms /\
   exists h m sec ms,
     split colon s = [h; m; sec; ms]
     /\ v = (Spec.seconds_of h m sec + Spec.millis_of ms)%Q)
  \/ (ok Spec.widths_hh_mm_ss /\
      exists h m sec,
        split colon s = [h; m; sec] /\ v = Spec.seconds_of h m sec)
  \/ (ok Spec.widths_mm_ss_ms /\
      exists m sec ms,
        split colon s = [m; sec; ms]
        /\ v = (inject_Z (digits_value m * 60 + digits_value sec)
                + Spec.millis_of ms)%Q)
  \/ (ok Spec.widths_mm_ss /\
      exists m sec,
        split colon s = [m; sec]
        /\ v = inject_Z (digits_value m * 60 + digits_value sec)).
Proof.
  intros H ok.
  destruct H as [h m sec ms Fh Fm Fs Fms|h m sec Fh Fm Fs
                |m sec ms Fm Fs Fms|m sec Fm Fs]; unfold ok.
  - left.
    rewrite (split_field h _ (proj2 Fh)), (split_field m _ (proj2 Fm)),
      (split_field sec _ (proj2 Fs)), (split_last_field ms (proj2 Fms)).
    split; [repeat (apply Forall2_cons; [simpl; assumption|]);
            apply Forall2_nil|].
    exists h, m, sec, ms. auto.
  - right. left.
    rewrite (split_field h _ (proj2 Fh)), (split_field m _ (proj2 Fm)),
      (split_last_field sec (proj2 Fs)).
    split; [repeat (apply Forall2_cons; [simpl; assumption|]);
            apply Forall2_nil|].
    exists h, m, sec. auto.
  - right. right. left.
    rewrite (split_field m _ (proj2 Fm)), (split_field sec _ (proj2 Fs)),
      (split_last_field ms (proj2 Fms)).
    split; [repeat (apply Forall2_cons; [simpl; assumption|]);
            apply Forall2_nil|].
    exists m, sec, ms. auto.
  - right. right. right.
    rewrite (split_field m _ (proj2 Fm)), (split_last_field sec (proj2 Fs)).
    split; [repeat (apply Forall2_cons; [simpl; assumption|]);
            apply Forall2_nil|].
    exists m, sec. auto.
Qed.

Lemma fields_timecode (s : list ascii) :
  (forall h m sec ms,
      split colon s = [h; m; sec; ms] ->
      Forall2 (fun w f => Spec.field (fst w) (snd w) f)
        Spec.widths_hh_mm_ss_ms (split colon s) ->
      Spec.timecode s (Spec.seconds_of h m sec + Spec.millis_of ms)%Q)
  /\ (forall h m sec,
        split colon s = [h; m; sec] ->
        Forall2 (fun w f => Spec.field (fst w) (snd w) f)
          Spec.widths_hh_mm_ss (split colon s) ->
        Spec.timecode s (Spec.seconds_of h m sec))
  /\ (forall m sec ms,
        split colon s = [m; sec; ms] ->
        Forall2 (fun w f => Spec.field (fst w) (snd w) f)
          Spec.widths_mm_ss_ms (split colon s) ->
        Spec.timecode s
          (inject_Z (digits_value m * 60 + digits_value sec)
           + Spec.millis_of ms)%Q)
  /\ (forall m sec,
        split colon s = [m; sec] ->
        Forall2 (fun w f => Spec.field (fst w) (snd w) f)
          Spec.widths_mm_ss (split colon s) ->
        Spec.timecode s
          (inject_Z (digits_value m * 60 + digits_value sec))).
Proof.
  repeat split; intros; rewrite <- (join_split s);
    match goal with
    | E : split colon s = _, F : Forall2 _ _ _ |- _ =>
        rewrite E in F |- *
    end;
    cbn [join]; rewrite ?app_nil_r;
    match goal with
    | F : Forall2 _ _ _ |- _ =>
        unfold Spec.widths_hh_mm_ss_ms, Spec.widths_hh_mm_ss,
          Spec.widths_mm_ss_ms, Spec.widths_mm_ss in F
    end;
    repeat match goal with
           | H : Forall2 _ (_ :: _) _ |- _ => inversion H; clear H; subst
           end;
    constructor; assumption.
Qed.

(** The text [parse_timecode] accepts, and the seconds it returns: what is
    left of the text once the blanks around it are dropped has one of the
    four shapes, and the value is the one the shape stands for. *)
Lemma parse_timecode_shape (text : string) (v : Q) :
  parse_timecode text = Ok (Some v)
  <-> Spec.timecode (strip (chars text)) v.
Proof.
  pose proof (parse_timecode_by_fields text) as P. cbv zeta in P.
  destruct (fields_timecode (strip (chars text))) as (T1 & T2 & T3 & T4).
  split.
  - intros Hv.
    destruct P as [(F & h & m & sec & ms & E & R)
                  |[(F & h & m & sec & E & R)
                   |[(F & m & sec & ms & E & R)
                    |[(F & m & sec & E & R)|(_ & _ & _ & _ & R)]]]];
      rewrite R in Hv; inversion Hv; subst; auto.
  - intros Hv. apply timecode_fields in Hv. cbv zeta in Hv.
    destruct Hv as [(G & h' & m' & sec' & ms' & E' & ->)
                   |[(G & h' & m' & sec' & E' & ->)
                    |[(G & m' & sec' & ms' & E' & ->)
                     |(G & m' & sec' & E' & ->)]]];
      destruct P as [(F & h & m & sec & ms & E & R)
                    |[(F & h & m & sec & E & R)
                     |[(F & m & sec & ms & E & R)
                      |[(F & m & sec & E & R)|(N1 & N2 & N3 & N4 & R)]]]];
      try contradiction;
      try (rewrite E' in E; inversion E; subst; exact R);
      exfalso; rewrite E' in F, G;
      unfold Spec.widths_hh_mm_ss_ms, Spec.widths_hh_mm_ss,
        Spec.widths_mm_ss_ms, Spec.widths_mm_ss in F, G;
      invert_fields; lia.
Qed.

Lemma parse_timecode_returns (text : string) :
  parse_timecode text = Ok None
  \/ exists v, parse_timecode text = Ok (Some v).
Proof.
  pose proof (parse_timecode_by_fields text) as P. cbv zeta in P.
  destruct P as [(F & h & m & sec & ms & E & R)
                |[(F & h & m & sec & E & R)
                 |[(F & m & sec & ms & E & R)
                  |[(F & m & sec & E & R)|(_ & _ & _ & _ & R)]]]];
    rewrite R; eauto.
Qed.

(** C5 fails as stated: a text with a blank before the timecode has none of
    the four shapes, and is accepted all the same. *)
Lemma blank_padded_timecode_accepted :
  parse_timecode " 02:05" = Ok (Some 125%Q)
  /\ forall v, ~ Spec.timecode (chars " 02:05") v.
Proof.
  split; [reflexivity|].
  intros v H. apply timecode_fields in H. cbv zeta in H.
  change (split colon (chars " 02:05"))
    with [chars " 02"; chars "05"] in H.
  destruct H as [(G & _)|[(G & _)|[(G & _)|(G & _)]]];
    unfold Spec.widths_hh_mm_ss_ms, Spec.widths_hh_mm_ss,
      Spec.widths_mm_ss_ms, Spec.widths_mm_ss in G;
    invert_fields; simpl in *; lia.
Qed.

(** C5, amended: once the blanks around the text are dropped,
    [parse_timecode] accepts exactly the four shapes [HH:MM:SS:mmm],
    [HH:MM:SS], [MM:SS:mmm] and [MM:SS] (leading field of one or two digits,
    the other fields of two, milliseconds of three) and returns the seconds
    the shape stands for; no text has two of the shapes, so the order of the
    tests decides nothing more; every other text gives [None], and nothing
    is raised.  In particular "01:02:03" gives 3723, "02:05" gives 125,
    "1:02:03:004" gives 3723.004 and "bad" gives [None]. *)
Theorem parse_timecode_four_shapes :
  (forall text,
      (forall v, parse_timecode text = Ok (Some v)
                 <-> Spec.timecode (strip (chars text)) v)
      /\ (parse_timecode text = Ok None
          <-> forall v, ~ Spec.timecode (strip (chars text)) v)
      /\ (forall v w,
             Spec.timecode (strip (chars text)) v ->
             Spec.timecode (strip (chars text)) w -> v = w))
  /\ parse_timecode "01:02:03" = Ok (Some 3723%Q)
  /\ parse_timecode "02:05" = Ok (Some 125%Q)
  /\ (exists v, parse_timecode "1:02:03:004" = Ok (Some v)
                /\ (v == 3723.004)%Q)
  /\ parse_timecode "bad" = Ok None.
Proof.
  split.
  - intros text. split; [apply parse_timecode_shape|]. split.
    + split.
      * intros HN v Hv. apply parse_timecode_shape in Hv.
        rewrite HN in Hv. discriminate Hv.
      * intros HN. destruct (parse_timecode_returns text) as [E|[v E]].
        -- exact E.
        -- apply parse_timecode_shape in E. destruct (HN v E).
    + intros v w Hv Hw.
      apply parse_timecode_shape in Hv. apply parse_timecode_shape in Hw.
      rewrite Hv in Hw. inversion Hw. reflexivity.
  - split; [reflexivity|]. split; [reflexivity|]. split.
    + eexists. split; [reflexivity|]. reflexivity.
    + reflexivity.
Qed.

Lemma parse_timecode_four_shapes_witness :
  parse_timecode "02:05"
  = Ok (Some (inject_Z (digits_value (chars "02") * 60
                        + digits_value (chars "05")))).
Proof.
  destruct parse_timecode_four_shapes as (H & _).
  destruct (H "02:05"%string) as (Hiff & _).
  apply Hiff.
  apply (Spec.MM_SS (chars "02") (chars "05")).
  - split; [simpl; lia|reflexivity].
  - split; [simpl; lia|reflexivity].
Defined.

(** ** Formatting and parsing back *)

Lemma format_02_two_digits (n : Z) :
  0 <= n < 100 ->
  exists a b,
    format_0w 2 n = [a; b]
    /\ is_digit a = true /\ is_digit b = true
    /\ digits_value [a; b] = n.
Proof.
  intros Hn.
  assert (Hall :
    forallb (fun k =>
               match format_0w 2 (Z.of_nat k) with
               | [a; b] => is_digit a && is_digit b
                           && (digits_value [a; b] =? Z.of_nat k)
               | _ => false
               end) (seq 0 100) = true) by (vm_compute; reflexivity).
  rewrite forallb_forall in Hall.
  specialize (Hall (Z.to_nat n)).
  rewrite Z2Nat.id in Hall by lia.
  assert (Hin : In (Z.to_nat n) (seq 0 100)) by (apply in_seq; lia).
  specialize (Hall Hin).
  destruct (format_0w 2 n) as [|a [|b [|c l]]]; try discriminate Hall.
  apply andb_true_iff in Hall. destruct Hall as [Hab Hv].
  apply andb_true_iff in Hab. destruct Hab as [Ha Hb].
  apply Z.eqb_eq in Hv.
  exists a, b. auto.
Qed.

Lemma int_of_float_inject_Z (z : Z) : int_of_float (inject_Z z) = z.
Proof. unfold int_of_float. simpl. apply Z.quot_1_r. Qed.

Lemma no_fraction_left (z : Z) :
  int_of_float ((inject_Z z - inject_Z (int_of_float (inject_Z z))) * 1000)
  = 0.
Proof.
  rewrite int_of_float_inject_Z. unfold int_of_float. simpl.
  replace ((z * 1 + - z * 1) * 1000) with 0 by ring. reflexivity.
Qed.

Lemma strip_fixed (l : list ascii) :
  lstrip l = l -> lstrip (rev l) = rev l -> strip l = l.
Proof.
  intros H1 H2. unfold strip, rstrip. rewrite H1, H2.
  apply rev_involutive.
Qed.

Lemma hours_minutes_seconds (n : Z) :
  0 <= n < 360000 ->
  let hours := n / 3600 in
  let remainder := n mod 3600 in
  let minutes := remainder / 60 in
  let seconds := remainder mod 60 in
  0 <= hours < 100 /\ 0 <= minutes < 60 /\ 0 <= seconds < 60
  /\ hours * 3600 + minutes * 60 + seconds = n.
Proof.
  intros Hn hours remainder minutes seconds.
  pose proof (Z.div_mod n 3600 ltac:(lia)) as D1.
  pose proof (Z.mod_pos_bound n 3600 ltac:(lia)) as B1.
  pose proof (Z.div_mod remainder 60 ltac:(lia)) as D2.
  pose proof (Z.mod_pos_bound remainder 60 ltac:(lia)) as B2.
  fold remainder in D1, B1. fold hours in D1.
  fold minutes in D2. fold seconds in D2, B2.
  assert (0 <= hours < 100).
  { unfold hours. split; [apply Z.div_pos; lia|].
    apply Z.div_lt_upper_bound; lia. }
  assert (0 <= minutes < 60).
  { unfold minutes. split; [apply Z.div_pos; lia|].
    apply Z.div_lt_upper_bound; lia. }
  repeat split; try lia.
Qed.

(** Whole seconds survive formatting and parsing back, in both formats, for
    every time of less than a hundred hours; the four-field format always
    writes [000] for the milliseconds, so it gives back no more than the
    whole seconds either. *)
Lemma round_trip_whole_seconds (x : Q) :
  0 <= int_of_float x < 360000 ->
  parse_timecode (CutWindow.convert_seconds_to_timecode x)
  = Ok (Some (inject_Z (int_of_float x)))
  /\ exists v,
       parse_timecode (VideoCutter.convert_seconds_to_timecode x)
       = Ok (Some v)
       /\ (v == inject_Z (int_of_float x))%Q.
Proof.
  intros Hx.
  destruct (hours_minutes_seconds _ Hx) as (Hh & Hm & Hs & Hsum).
  cbv zeta in Hh, Hm, Hs, Hsum.
  destruct (format_02_two_digits _ Hh) as (a & b & Eh & Da & Db & Vh).
  destruct (format_02_two_digits (int_of_float x mod 3600 / 60) ltac:(lia))
    as (c & d & Em & Dc & Dd & Vm).
  destruct (format_02_two_digits ((int_of_float x mod 3600) mod 60)
              ltac:(lia))
    as (e & f & Es & De & Df & Vs).
  assert (Fh : Spec.field 1 2 [a; b]).
  { split; [simpl; lia|]. simpl. rewrite Da, Db. reflexivity. }
  assert (Fm : Spec.field 2 2 [c; d]).
  { split; [simpl; lia|]. simpl. rewrite Dc, Dd. reflexivity. }
  assert (Fs : Spec.field 2 2 [e; f]).
  { split; [simpl; lia|]. simpl. rewrite De, Df. reflexivity. }
  assert (F0 : Spec.field 3 3 (format_0w 3 0)).
  { split; [simpl; lia|reflexivity]. }
  pose proof (digit_is_not_space _ Da) as Sa.
  pose proof (digit_is_not_space _ Df) as Sf.
  split.
  - apply parse_timecode_shape.
    unfold CutWindow.convert_seconds_to_timecode, divmod.
    unfold chars. rewrite list_ascii_of_string_of_list_ascii.
    rewrite Eh, Em, Es.
    rewrite strip_fixed.
    + replace (inject_Z (int_of_float x))
        with (Spec.seconds_of [a; b] [c; d] [e; f]).
      * apply (Spec.HH_MM_SS [a; b] [c; d] [e; f] Fh Fm Fs).
      * unfold Spec.seconds_of. rewrite Vh, Vm, Vs, Hsum. reflexivity.
    + simpl. rewrite Sa. reflexivity.
    + simpl. rewrite Sf. reflexivity.
  - exists (Spec.seconds_of [a; b] [c; d] [e; f]
            + Spec.millis_of (format_0w 3 0))%Q.
    split.
    + apply parse_timecode_shape.
      unfold VideoCutter.convert_seconds_to_timecode, divmod.
      rewrite no_fraction_left, int_of_float_inject_Z.
      unfold chars. rewrite list_ascii_of_string_of_list_ascii.
      rewrite Eh, Em, Es.
      rewrite strip_fixed.
      * apply (Spec.HH_MM_SS_mmm [a; b] [c; d] [e; f] (format_0w 3 0)
                 Fh Fm Fs F0).
      * simpl. rewrite Sa. reflexivity.
      * reflexivity.
    + unfold Spec.seconds_of. rewrite Vh, Vm, Vs, Hsum.
      change (Spec.millis_of (format_0w 3 0)) with (0 / 1000)%Q.
      field.
Qed.

(** C6, at the input where the code departs from it: 1.5 seconds is written
    as "00:00:01:000" by the four-field format, which parses back to 1
    second, not to 1.5; the three-field format gives "00:00:01" and 1
    second, as it should. *)
Theorem milliseconds_lost_in_round_trip :
  VideoCutter.convert_seconds_to_timecode 1.5 = "00:00:01:000"%string
  /\ (exists v,
         parse_timecode (VideoCutter.convert_seconds_to_timecode 1.5)
         = Ok (Some v)
         /\ (v == 1)%Q /\ ~ (v == 1.5)%Q)
  /\ CutWindow.convert_seconds_to_timecode 1.5 = "00:00:01"%string
  /\ parse_timecode (CutWindow.convert_seconds_to_timecode 1.5)
     = Ok (Some 1%Q).
Proof.
  split; [reflexivity|]. split.
  - eexists. split; [reflexivity|]. split; [reflexivity|].
    intros H. discriminate H.
  - split; reflexivity.
Qed.

(** ** The gathered clips against the plan of the specification *)

Lemma skipn_nth_error {A} (l : list A) :
  forall i x, nth_error l i = Some x -> skipn i l = x :: skipn (S i) l.
Proof.
  induction l as [|a l IH]; intros [|i] x H; simpl in *;
    try discriminate H.
  - inversion H. reflexivity.
  - apply IH. exact H.
Qed.

Lemma gather_mp3_from (self : CutWindow) (g : pyfloat) (bounds : list Q) :
  length (sections self) = S (length (CutWindow.cut_points self)) ->
  forall i last_time clips (emitted : bool),
    (i + length bounds = S (length (CutWindow.cut_points self)))%nat ->
    let secs :=
      combine (Spec.ranges_from last_time bounds)
              (skipn i (sections self)) in
    gather_mp3 self g i last_time bounds
      (clips ++ if emitted then [SilenceGap g] else [])
    = Ok (clips ++ Spec.build_plan_from emitted secs g
          ++ if Spec.ends_deleted emitted secs then [SilenceGap g] else []).
Proof.
  intros Hlen.
  induction bounds as [|cut_time bounds IH];
    intros i last_time clips emitted Hi secs.
  - reflexivity.
  - simpl in Hi.
    destruct (nth_error (sections self) i) as [section|] eqn:E;
      [|apply nth_error_None in E; lia].
    unfold secs. rewrite (skipn_nth_error _ _ _ E).
    cbn [gather_mp3 Spec.ranges_from combine]. unfold getitem. rewrite E.
    cbn [bind].
    destruct section; cbn [choice_eqb Spec.build_plan_from
                             Spec.ends_deleted].
    + destruct bounds as [|cut_time' bounds].
      * assert (Hn : (i <? length (CutWindow.cut_points self))%nat = false)
          by (apply Nat.ltb_ge; simpl in Hi; lia).
        rewrite Hn. cbn [gather_mp3 Spec.ranges_from combine
                           Spec.build_plan_from].
        rewrite <- !app_assoc. reflexivity.
      * assert (Hn : (i <? length (CutWindow.cut_points self))%nat = true)
          by (apply Nat.ltb_lt; simpl in Hi; lia).
        rewrite Hn.
        specialize (IH (S i) cut_time
                      ((clips ++ if emitted then [SilenceGap g] else [])
                       ++ [KeepRange last_time cut_time]) true
                      ltac:(simpl in *; lia)).
        cbv zeta in IH. rewrite IH.
        destruct (nth_error (sections self) (S i)) as [next|] eqn:E';
          [|apply nth_error_None in E'; simpl in Hi; lia].
        rewrite (skipn_nth_error _ _ _ E').
        cbn [Spec.ranges_from combine].
        rewrite <- !app_assoc. reflexivity.
    + apply (IH (S i) cut_time clips emitted ltac:(lia)).
Qed.

(** What both loops gather is the plan of the specification, followed by
    one more silence gap when a kept section has only deleted sections
    after it. *)
Lemma gathered_plan_is_spec_plan_and_trailing_gap (self : CutWindow)
  (g : pyfloat) :
  length (sections self) = S (length (CutWindow.cut_points self)) ->
  let secs := Spec.planner_sections self in
  let plan :=
    Spec.build_plan secs g
    ++ if Spec.ends_deleted false secs then [SilenceGap g] else [] in
  gather_mp3 self g 0 0 (CutWindow.cut_points self ++ [CutWindow.duration self]) [] = Ok plan
  /\ gather_with_background self g 0 0
       (CutWindow.cut_points self ++ [CutWindow.duration self]) [] = Ok plan.
Proof.
  intros Hlen secs plan.
  assert (H : gather_mp3 self g 0 0 (CutWindow.cut_points self ++ [CutWindow.duration self]) []
              = Ok plan).
  { apply (gather_mp3_from self g (CutWindow.cut_points self ++ [CutWindow.duration self]) Hlen
             0%nat 0%Q [] false).
    rewrite length_app. simpl. lia. }
  split; [exact H|]. rewrite gather_paths_agree. exact H.
Qed.

Lemma spec_plan_after_keep (secs : list (Q * Q * choice)) (g : pyfloat) :
  forall a b,
    Spec.gaps_only_between
      (KeepRange a b :: Spec.build_plan_from true secs g) = true.
Proof.
  induction secs as [|[[start stop] c] secs IH]; intros a b.
  - reflexivity.
  - destruct c.
    + change (Spec.gaps_only_between
                (KeepRange start stop :: Spec.build_plan_from true secs g)
              = true).
      apply IH.
    + apply (IH a b).
Qed.

(** The plan of the specification keeps the invariant: gaps only between
    two kept ranges. *)
Lemma spec_plan_gaps_only_between (secs : list (Q * Q * choice))
  (g : pyfloat) :
  Spec.gaps_only_between (Spec.build_plan secs g) = true.
Proof.
  unfold Spec.build_plan.
  induction secs as [|[[start stop] c] secs IH].
  - reflexivity.
  - destruct c.
    + apply (spec_plan_after_keep secs g start stop).
    + exact IH.
Qed.

Lemma gap_at_end_breaks_invariant (n : nat) :
  forall plan g,
    (length plan <= n)%nat ->
    Spec.gaps_only_between (plan ++ [SilenceGap g]) = false.
Proof.
  induction n as [|n IH]; intros plan g Hn.
  - destruct plan; [reflexivity|simpl in Hn; lia].
  - destruct plan as [|[a b|d] [|[a' b'|d'] [|[a2 b2|d2] plan]]];
      try reflexivity.
    cbn [app Spec.gaps_only_between].
    apply (IH (KeepRange a2 b2 :: plan) g). simpl in *. lia.
Qed.

(** The clips gathered keep the invariant exactly when no kept section is
    followed by deleted sections only. *)
Lemma gathered_plan_invariant (self : CutWindow) (g : pyfloat) :
  length (sections self) = S (length (CutWindow.cut_points self)) ->
  exists plan,
    gather_mp3 self g 0 0 (CutWindow.cut_points self ++ [CutWindow.duration self]) [] = Ok plan
    /\ Spec.gaps_only_between plan
       = negb (Spec.ends_deleted false (Spec.planner_sections self)).
Proof.
  intros Hlen.
  destruct (gathered_plan_is_spec_plan_and_trailing_gap self g Hlen)
    as [H _].
  eexists. split; [exact H|].
  destruct (Spec.ends_deleted false (Spec.planner_sections self)).
  - apply (gap_at_end_breaks_invariant _ _ _ (le_n _)).
  - rewrite app_nil_r. apply spec_plan_gaps_only_between.
Qed.

(** ** Sections after a new cut point *)

Lemma init_rows_length (D : Q) (cps : list Q) :
  length (rows (CutWindow.init D cps)) = S (length cps).
Proof.
  rewrite <- (length_map (fun r => (row_start r, row_end r))), init_ranges.
  unfold Spec.derive_sections.
  rewrite ranges_length, length_app, Nat.add_comm. reflexivity.
Qed.

(** Adding a cut point and opening the dialog gives one section more than
    before, all of them set to keep. *)
Lemma sections_after_add_cut_point (self : VideoEditorApp) (d : Q)
  (player_time : Z) :
  clip self = Some d ->
  exists w,
    snd (open_cut_window (add_cut_point self player_time)) = Some w
    /\ length (rows w) = S (S (length (VideoCutter.cut_points self)))
    /\ sections w = repeat keep (S (S (length (VideoCutter.cut_points self)))).
Proof.
  intros Hclip. unfold add_cut_point. rewrite Hclip.
  unfold open_cut_window. simpl. rewrite Hclip.
  eexists. split; [reflexivity|]. split.
  - rewrite init_rows_length, length_app, Nat.add_comm. reflexivity.
  - rewrite init_sections, length_app, Nat.add_comm. reflexivity.
Qed.

(** * Further properties of the code *)

(** ** Timecodes written and read *)

Lemma string_of_list_ascii_app (l1 l2 : list ascii) :
  string_of_list_ascii (l1 ++ l2)
  = (string_of_list_ascii l1 ++ string_of_list_ascii l2)%string.
Proof.
  induction l1 as [|c l1 IH]; simpl; [reflexivity|rewrite IH; reflexivity].
Qed.


(** The four-field timecode of the main window is the three-field timecode
    of the dialog followed by [:000], whatever the time: its millisecond
    field never shows anything else. *)
Theorem four_field_timecode_has_zero_milliseconds (x : Q) :
  VideoCutter.convert_seconds_to_timecode x
  = (CutWindow.convert_seconds_to_timecode x ++ ":000")%string.
Proof.
  unfold VideoCutter.convert_seconds_to_timecode,
    CutWindow.convert_seconds_to_timecode, divmod.
  rewrite no_fraction_left, int_of_float_inject_Z.
  unfold VideoCutter.sep.
  rewrite <- (string_of_list_ascii_app _ (chars ":000")).
  f_equal. rewrite <- !app_assoc. reflexivity.
Qed.

Lemma round_trip_whole_seconds_witness :
  parse_timecode (CutWindow.convert_seconds_to_timecode 3723.5)
  = Ok (Some (inject_Z (int_of_float 3723.5))).
Proof.
  apply (round_trip_whole_seconds 3723.5).
  split; [apply Z.leb_le|apply Z.ltb_lt]; reflexivity.
Defined.

Lemma digit_val_bounds (c : ascii) :
  is_digit c = true -> 0 <= digit_val c <= 9.
Proof.
  unfold is_digit, digit_val. intros H.
  apply andb_true_iff in H. destruct H as [H1 H2].
  apply Z.leb_le in H1. apply Z.leb_le in H2. lia.
Qed.

Lemma digits_fold_bounds (d : list ascii) :
  forallb is_digit d = true ->
  forall acc,
    0 <= acc ->
    acc * 10 ^ Z.of_nat (length d)
    <= fold_left (fun acc c => acc * 10 + digit_val c) d acc
    < (acc + 1) * 10 ^ Z.of_nat (length d).
Proof.
  induction d as [|c d IH]; intros Hd acc Hacc.
  - simpl. lia.
  - simpl in Hd. apply andb_true_iff in Hd. destruct Hd as [Hc Hd].
    pose proof (digit_val_bounds c Hc) as Bc.
    cbn [fold_left length].
    rewrite Nat2Z.inj_succ, Z.pow_succ_r by lia.
    specialize (IH Hd (acc * 10 + digit_val c) ltac:(lia)).
    assert (0 < 10 ^ Z.of_nat (length d)) by (apply Z.pow_pos_nonneg; lia).
    nia.
Qed.

Lemma field_value_bounds (lo hi : nat) (d : list ascii) :
  Spec.field lo hi d ->
  0 <= digits_value d < 10 ^ Z.of_nat hi.
Proof.
  intros [Hlen Hd]. unfold digits_value.
  pose proof (digits_fold_bounds d Hd 0 ltac:(lia)) as B.
  assert (10 ^ Z.of_nat (length d) <= 10 ^ Z.of_nat hi)
    by (apply Z.pow_le_mono_r; lia).
  lia.
Qed.

(** Whatever [parse_timecode] accepts is a time between 0 and 99 hours, 99
    minutes, 99 seconds and 999 milliseconds: fields above 59 are taken as
    they are, and no accepted text gives a negative time. *)
Theorem parsed_timecode_bounds (text : string) (v : Q) :
  parse_timecode text = Ok (Some v) ->
  (0 <= v)%Q /\ (v <= 362439.999)%Q.
Proof.
  intros H. apply parse_timecode_shape in H.
  destruct H as [h m s ms Fh Fm Fs Fms|h m s Fh Fm Fs
                |m s ms Fm Fs Fms|m s Fm Fs];
    repeat match goal with
           | F : Spec.field _ _ _ |- _ =>
               apply field_value_bounds in F; simpl in F
           end;
    unfold Spec.seconds_of, Spec.millis_of;
    repeat match goal with
           | |- context [digits_value ?d] =>
               let n := fresh "n" in
               remember (digits_value d) as n
           end;
    unfold Qle, Qdiv, Qmult, Qplus, Qinv, inject_Z; simpl; lia.
Qed.

Lemma parsed_timecode_bounds_witness :
  (0 <= 6039)%Q /\ (6039 <= 362439.999)%Q.
Proof.
  apply (parsed_timecode_bounds "99:99"%string 6039%Q). reflexivity.
Defined.

(** ** The dialog: markers, toggles, and what the exports can do *)

Lemma dialog_markers_fold (cps : list Q) :
  forall m,
    CutWindow.mb_duration (fold_left CutWindow.add_marker cps m)
    = CutWindow.mb_duration m
    /\ CutWindow.markers (fold_left CutWindow.add_marker cps m)
       = CutWindow.markers m
         ++ filter (fun t => Qle_bool 0 t
                             && Qle_bool t (CutWindow.mb_duration m)) cps.
Proof.
  induction cps as [|t cps IH]; intros m; simpl.
  - rewrite app_nil_r. auto.
  - destruct (IH (CutWindow.add_marker m t)) as [Hd Hm].
    rewrite Hd, Hm. unfold CutWindow.add_marker.
    destruct (Qle_bool 0 t && Qle_bool t (CutWindow.mb_duration m)); simpl.
    + rewrite <- app_assoc. auto.
    + auto.
Qed.

(** The marker bar of the dialog shows the cut points that lie within
    [[0, duration]], in the order given, and drops the others, while the
    section list is still built from all of them. *)
Theorem dialog_marks_cut_points_in_range (D : Q) (cps : list Q) :
  CutWindow.markers (CutWindow.marker_bar (CutWindow.init D cps))
  = filter (fun t => Qle_bool 0 t && Qle_bool t D) cps
  /\ length (rows (CutWindow.init D cps)) = S (length cps).
Proof.
  split; [|apply init_rows_length].
  unfold CutWindow.init.
  destruct (section_loop 0 0 (cps ++ [D])) as [rs cs]. simpl.
  apply (dialog_markers_fold cps
           {| CutWindow.mb_duration := D; CutWindow.markers := [] |}).
Qed.

Lemma nth_error_setitem {A} (l : list A) (v : A) :
  forall i j,
    (i < length l)%nat ->
    nth_error (firstn i l ++ v :: skipn (S i) l) j
    = if (j =? i)%nat then Some v else nth_error l j.
Proof.
  induction l as [|a l IH]; intros i j Hi; simpl in Hi; [lia|].
  destruct i as [|i]; destruct j as [|j]; simpl; try reflexivity.
  apply IH. lia.
Qed.

Lemma length_setitem {A} (l : list A) (v : A) :
  forall i,
    (i < length l)%nat ->
    length (firstn i l ++ v :: skipn (S i) l) = length l.
Proof.
  induction l as [|a l IH]; intros i Hi; simpl in Hi; [lia|].
  destruct i as [|i]; simpl; [reflexivity|].
  f_equal. apply IH. lia.
Qed.

(** A toggle on an existing section sets the state of that section and of
    no other, and leaves the rest of the window as it is; on an index past
    the last section it raises [IndexError]. *)
Theorem toggle_sets_one_section (self : CutWindow) (index : nat)
  (checked : bool) :
  ((index < length (sections self))%nat ->
   exists w,
     toggle_section_choice self index checked = Ok w
     /\ length (sections w) = length (sections self)
     /\ (forall j,
           nth_error (sections w) j
           = if (j =? index)%nat
             then Some (if checked then keep else delete)
             else nth_error (sections self) j)
     /\ CutWindow.cut_points w = CutWindow.cut_points self
     /\ CutWindow.duration w = CutWindow.duration self
     /\ rows w = rows self
     /\ CutWindow.marker_bar w = CutWindow.marker_bar self
     /\ silence_input w = silence_input self
     /\ background_image_path w = background_image_path self)
  /\ ((length (sections self) <= index)%nat ->
      toggle_section_choice self index checked = Raise IndexError).
Proof.
  unfold toggle_section_choice, setitem. split; intros H.
  - apply Nat.ltb_lt in H. rewrite H. apply Nat.ltb_lt in H. simpl.
    eexists. split; [reflexivity|]. simpl.
    split; [apply length_setitem; exact H|].
    split; [intros j; apply nth_error_setitem; exact H|].
    repeat split; reflexivity.
  - apply Nat.ltb_ge in H. rewrite H. reflexivity.
Qed.

Lemma toggle_sets_one_section_witness :
  exists w,
    toggle_section_choice (CutWindow.init 30 [10; 20]%Q) 1 false = Ok w
    /\ nth_error (sections w) 1 = Some delete.
Proof.
  destruct (toggle_sets_one_section (CutWindow.init 30 [10; 20]%Q) 1 false)
    as [Hin _].
  destruct Hin as (w & E & _ & Hnth & _).
  - simpl. lia.
  - exists w. split; [exact E|]. apply (Hnth 1%nat).
Defined.

Lemma perform_keeps (self w : CutWindow) (a : Dialog.action) :
  Dialog.perform self a = Ok w ->
  length (sections w) = length (sections self)
  /\ CutWindow.cut_points w = CutWindow.cut_points self
  /\ CutWindow.duration w = CutWindow.duration self
  /\ rows w = rows self.
Proof.
  destruct a as [index checked|text|image_path]; simpl.
  - unfold toggle_section_choice, setitem.
    destruct (index <? length (sections self))%nat eqn:E; simpl;
      intros H; inversion H; subst; simpl.
    apply Nat.ltb_lt in E.
    split; [apply length_setitem; exact E|]. auto.
  - intros H. inversion H. auto.
  - unfold import_background_image.
    destruct (String.eqb image_path EmptyString);
      intros H; inversion H; auto.
Qed.

Lemma perform_all_keeps (actions : list Dialog.action) :
  forall self w,
    Dialog.perform_all self actions = Ok w ->
    length (sections w) = length (sections self)
    /\ CutWindow.cut_points w = CutWindow.cut_points self
    /\ CutWindow.duration w = CutWindow.duration self
    /\ rows w = rows self.
Proof.
  induction actions as [|a actions IH]; intros self w H; simpl in H.
  - inversion H. auto.
  - destruct (Dialog.perform self a) as [w1|e] eqn:E; simpl in H;
      [|discriminate H].
    destruct (perform_keeps _ _ _ E) as (A1 & A2 & A3 & A4).
    destruct (IH _ _ H) as (B1 & B2 & B3 & B4).
    rewrite B1, B2, B3, B4. auto.
Qed.

Lemma gather_mp3_returns (self : CutWindow) (g : pyfloat) :
  length (sections self) = S (length (CutWindow.cut_points self)) ->
  exists plan,
    gather_mp3 self g 0 0
      (CutWindow.cut_points self ++ [CutWindow.duration self]) [] = Ok plan.
Proof.
  intros Hlen. eexists.
  apply (gather_mp3_from self g
           (CutWindow.cut_points self ++ [CutWindow.duration self]) Hlen
           0%nat 0%Q [] false).
  rewrite length_app. simpl. lia.
Qed.

(** Whatever the user does in the dialog (toggles, edits of the silence
    field, background images), as long as no step raises, the window keeps
    the cut points, duration and rows it was opened with and one state per
    section; the gathering loops of both export paths then run to their
    end on it, for every silence duration: the lookup of a section's state
    never raises [IndexError]. *)
Theorem dialog_actions_keep_exports_safe (D : Q) (cps : list Q)
  (actions : list Dialog.action) (w : CutWindow) :
  Dialog.perform_all (CutWindow.init D cps) actions = Ok w ->
  length (sections w) = S (length cps)
  /\ CutWindow.cut_points w = cps
  /\ CutWindow.duration w = D
  /\ rows w = rows (CutWindow.init D cps)
  /\ (forall g,
        exists plan,
          gather_mp3 w g 0 0 (cps ++ [D]) [] = Ok plan
          /\ gather_with_background w g 0 0 (cps ++ [D]) [] = Ok plan)
  /\ (exists plan,
        plan_mp3 w = Ok plan /\ plan_with_background w = Ok plan).
Proof.
  intros H. destruct (perform_all_keeps _ _ _ H) as (A1 & A2 & A3 & A4).
  rewrite init_sections, repeat_length in A1.
  assert (Ec : CutWindow.cut_points (CutWindow.init D cps) = cps).
  { unfold CutWindow.init.
    destruct (section_loop 0 0 (cps ++ [D])). reflexivity. }
  assert (Ed : CutWindow.duration (CutWindow.init D cps) = D).
  { unfold CutWindow.init.
    destruct (section_loop 0 0 (cps ++ [D])). reflexivity. }
  rewrite Ec in A2. rewrite Ed in A3.
  assert (Hlen : length (sections w) = S (length (CutWindow.cut_points w)))
    by (rewrite A1, A2; reflexivity).
  assert (Hg : forall g,
             exists plan,
               gather_mp3 w g 0 0 (cps ++ [D]) [] = Ok plan
               /\ gather_with_background w g 0 0 (cps ++ [D]) []
                  = Ok plan).
  { intros g. destruct (gather_mp3_returns w g Hlen) as [plan Ep].
    rewrite A2, A3 in Ep. exists plan. split; [exact Ep|].
    rewrite gather_paths_agree. exact Ep. }
  split; [exact A1|]. split; [exact A2|]. split; [exact A3|].
  split; [exact A4|]. split; [exact Hg|].
  destruct (get_silence_duration_returns w) as [g Eg].
  destruct (Hg g) as (plan & E1 & E2).
  exists plan. unfold plan_mp3, plan_with_background.
  rewrite Eg, A2, A3. cbn [bind]. auto.
Qed.

Lemma dialog_actions_keep_exports_safe_witness :
  exists w,
    Dialog.perform_all (CutWindow.init 30 [10; 20]%Q)
      [Dialog.Toggle 1 false; Dialog.Edit_silence "2.5";
       Dialog.Import_background "bg.png"] = Ok w
    /\ length (sections w) = 3%nat.
Proof.
  eexists. split; [reflexivity|].
  apply (dialog_actions_keep_exports_safe 30 [10; 20]%Q
           [Dialog.Toggle 1 false; Dialog.Edit_silence "2.5";
            Dialog.Import_background "bg.png"]).
  reflexivity.
Defined.

Lemma init_row_indices (D : Q) (cps : list Q) :
  map row_index (rows (CutWindow.init D cps)) = seq 0 (S (length cps)).
Proof.
  rewrite init_rows, section_loop_indices, length_app, Nat.add_comm.
  reflexivity.
Qed.

Lemma perform_all_on_rows (R : list section_row) (n : nat)
  (actions : list Dialog.action) :
  map row_index R = seq 0 n ->
  forall self,
    rows self = R -> length (sections self) = n ->
    Forall (Dialog.on_a_row self) actions ->
    exists w, Dialog.perform_all self actions = Ok w.
Proof.
  intros HR. induction actions as [|a actions IH]; intros self Hr Hn Hall.
  - eexists. reflexivity.
  - inversion Hall as [|? ? Ha Hrest]; subst. cbn [Dialog.perform_all].
    assert (exists w1, Dialog.perform self a = Ok w1) as [w1 E].
    { destruct a as [index checked|text|image_path]; simpl;
        try (eexists; reflexivity).
      simpl in Ha. rewrite HR in Ha. apply in_seq in Ha.
      unfold toggle_section_choice, setitem.
      assert (Hlt : (index <? length (sections self))%nat = true)
        by (apply Nat.ltb_lt; lia).
      rewrite Hlt. simpl. eexists. reflexivity. }
    rewrite E. cbn [bind].
    destruct (perform_keeps _ _ _ E) as (A1 & _ & _ & A4).
    apply IH.
    + rewrite A4. reflexivity.
    + rewrite A1. reflexivity.
    + clear -Hrest A4. induction Hrest as [|b l Hb Hl IHl]; constructor.
      * destruct b; simpl in *; auto. rewrite A4. exact Hb.
      * exact IHl.
Qed.

(** The toggles the dialog offers are those of its rows, numbered from 0 to
    the number of cut points; a session made of such toggles, edits of the
    silence field and background imports never raises. *)
Theorem toggles_on_rows_never_raise (D : Q) (cps : list Q)
  (actions : list Dialog.action) :
  Forall (Dialog.on_a_row (CutWindow.init D cps)) actions ->
  map row_index (rows (CutWindow.init D cps)) = seq 0 (S (length cps))
  /\ exists w, Dialog.perform_all (CutWindow.init D cps) actions = Ok w.
Proof.
  intros Hall. split; [apply init_row_indices|].
  apply (perform_all_on_rows (rows (CutWindow.init D cps))
           (S (length cps)) actions (init_row_indices D cps)
           (CutWindow.init D cps) eq_refl).
  - rewrite init_sections. apply repeat_length.
  - exact Hall.
Qed.

Lemma toggles_on_rows_never_raise_witness :
  exists w,
    Dialog.perform_all (CutWindow.init 30 [10; 20]%Q)
      [Dialog.Toggle 2 false; Dialog.Toggle 0 false; Dialog.Toggle 2 true]
    = Ok w.
Proof.
  apply (toggles_on_rows_never_raise 30 [10; 20]%Q).
  repeat (apply Forall_cons; [vm_compute; auto 10|]). apply Forall_nil.
Defined.

Lemma kept_or_all_deleted (l : list choice) :
  In keep l \/ Forall (fun c => c = delete) l.
Proof.
  induction l as [|c l IH].
  - right. constructor.
  - destruct c.
    + left. left. reflexivity.
    + destruct IH as [H|H]; [left; right; exact H|right].
      constructor; [reflexivity|exact H].
Qed.

(** A file is written only on the user's word.  The MP3 path writes an
    audio file only if the user confirmed, gave a save path, and at least
    one section is kept; the full-video path writes a video file only if
    the user confirmed, imported a background image and gave a save path.
    In both cases the file written is the one named in the save dialog. *)
Theorem files_written_only_when (self : CutWindow) (confirm : bool)
  (save_path p : string) (calls : list call) :
  length (sections self) = S (length (CutWindow.cut_points self)) ->
  (cut_and_join_sections_mp3 self confirm save_path = Ok calls ->
   In (Write_audiofile p) calls ->
   confirm = true /\ p = save_path /\ save_path <> EmptyString
   /\ In keep (sections self))
  /\ (cut_and_join_sections_with_background self confirm save_path
      = Ok calls ->
      In (Write_videofile p) calls ->
      confirm = true /\ p = save_path /\ save_path <> EmptyString
      /\ truthy (background_image_path self) = true).
Proof.
  intros Hlen.
  destruct (get_silence_duration_returns self) as [g Eg].
  destruct (gather_mp3_returns self g Hlen) as [plan Ep].
  split.
  - unfold cut_and_join_sections_mp3. rewrite Eg. cbn [bind].
    destruct confirm; cbn [negb];
      [|intros H; inversion H; subst; intros []].
    rewrite Ep. cbn [bind].
    destruct plan as [|c plan];
      [intros H; inversion H; subst; intros []|].
    intros H Hin. inversion H; subst. clear H.
    destruct (String.eqb save_path EmptyString) eqn:Es.
    + simpl in Hin. destruct Hin as [Hin|[]]. discriminate Hin.
    + simpl in Hin. destruct Hin as [Hin|[Hin|[]]]; [discriminate Hin|].
      inversion Hin; subst.
      split; [reflexivity|]. split; [reflexivity|].
      split; [apply String.eqb_neq; exact Es|].
      destruct (kept_or_all_deleted (sections self)) as [Hk|Hd];
        [exact Hk|].
      rewrite (gather_mp3_nothing_kept self g _ Hd) in Ep
        by (rewrite length_app; simpl; lia).
      discriminate Ep.
  - unfold cut_and_join_sections_with_background. rewrite Eg. cbn [bind].
    destruct confirm; cbn [negb];
      [|intros H; inversion H; subst; intros []].
    destruct (truthy (background_image_path self)) eqn:Eb; cbn [negb].
    + rewrite (gather_paths_agree self g), Ep. cbn [bind].
      intros H Hin. inversion H; subst. clear H.
      destruct (String.eqb save_path EmptyString) eqn:Es; simpl in Hin.
      * destruct Hin as [Hin|[Hin|[]]]; discriminate Hin.
      * destruct Hin as [Hin|[Hin|[Hin|[]]]]; try discriminate Hin.
        inversion Hin; subst.
        repeat split; try reflexivity. apply String.eqb_neq; exact Es.
    + intros H Hin. inversion H; subst.
      destruct Hin as [Hin|[]]. discriminate Hin.
Qed.

Lemma files_written_only_when_witness :
  In keep (sections (CutWindow.init 30 [10; 20]%Q)).
Proof.
  destruct (files_written_only_when (CutWindow.init 30 [10; 20]%Q) true
              "out.mp3" "out.mp3"
              [Concatenate_audioclips
                 [KeepRange 0 10; SilenceGap (Finite 1); KeepRange 10 20;
                  SilenceGap (Finite 1); KeepRange 20 30];
               Write_audiofile "out.mp3"] eq_refl) as [H _].
  apply H.
  - reflexivity.
  - right. left. reflexivity.
Defined.

(** ** The gathered clips when the last section is kept *)

Lemma ranges_from_snoc (bounds : list Q) :
  forall last D,
    exists x,
      Spec.ranges_from last (bounds ++ [D])
      = Spec.ranges_from last bounds ++ [(x, D)].
Proof.
  induction bounds as [|c bounds IH]; intros last D; simpl.
  - exists last. reflexivity.
  - destruct (IH c D) as [x E]. exists x. rewrite E. reflexivity.
Qed.

Lemma combine_snoc {A B} (l1 : list A) (l2 : list B) (a : A) (b : B) :
  length l1 = length l2 ->
  combine (l1 ++ [a]) (l2 ++ [b]) = combine l1 l2 ++ [(a, b)].
Proof.
  revert l2. induction l1 as [|x l1 IH]; intros [|y l2] H; simpl in *;
    try discriminate H.
  - reflexivity.
  - f_equal. apply IH. lia.
Qed.

Lemma ends_deleted_last_kept (secs : list (Q * Q * choice)) :
  forall emitted a b,
    Spec.ends_deleted emitted (secs ++ [(a, b, keep)]) = false.
Proof.
  induction secs as [|[[x y] c] secs IH]; intros emitted a b.
  - reflexivity.
  - cbn [app Spec.ends_deleted]. destruct c.
    + destruct (secs ++ [(a, b, keep)]) eqn:E.
      * destruct secs; discriminate E.
      * rewrite <- E. apply IH.
    + apply IH.
Qed.

(** Both loops gather the plan of the specification, followed by one more
    silence gap when a kept section has only deleted sections after it;
    when the last section is kept they gather exactly the plan of the
    specification, whose gaps all lie between two kept ranges. *)
Theorem gathered_clips_against_spec_plan (self : CutWindow) (g : pyfloat) :
  length (sections self) = S (length (CutWindow.cut_points self)) ->
  let secs := Spec.planner_sections self in
  let bounds := CutWindow.cut_points self ++ [CutWindow.duration self] in
  gather_mp3 self g 0 0 bounds []
  = Ok (Spec.build_plan secs g
        ++ if Spec.ends_deleted false secs then [SilenceGap g] else [])
  /\ gather_with_background self g 0 0 bounds []
     = gather_mp3 self g 0 0 bounds []
  /\ ((exists l, sections self = l ++ [keep]) ->
      gather_mp3 self g 0 0 bounds [] = Ok (Spec.build_plan secs g)
      /\ Spec.gaps_only_between (Spec.build_plan secs g) = true).
Proof.
  intros Hlen secs bounds.
  assert (H : gather_mp3 self g 0 0 bounds []
              = Ok (Spec.build_plan secs g
                    ++ if Spec.ends_deleted false secs
                       then [SilenceGap g] else [])).
  { apply (gather_mp3_from self g bounds Hlen 0%nat 0%Q [] false).
    unfold bounds. rewrite length_app. simpl. lia. }
  split; [exact H|]. split; [apply gather_paths_agree|].
  intros [l El]. split; [|apply spec_plan_gaps_only_between].
  rewrite H.
  assert (Hd : Spec.ends_deleted false secs = false).
  { unfold secs, Spec.planner_sections, Spec.derive_sections.
    destruct (ranges_from_snoc (CutWindow.cut_points self) 0%Q
                (CutWindow.duration self)) as [x Ex].
    rewrite Ex, El, combine_snoc.
    - apply ends_deleted_last_kept.
    - rewrite ranges_length. rewrite El, length_app in Hlen.
      simpl in Hlen. lia. }
  rewrite Hd, app_nil_r. reflexivity.
Qed.

Lemma gathered_clips_against_spec_plan_witness :
  gather_mp3 (CutWindow.init 30 [10; 20]%Q) (Finite 1) 0 0
    [10; 20; 30]%Q []
  = Ok (Spec.build_plan
          (Spec.planner_sections (CutWindow.init 30 [10; 20]%Q))
          (Finite 1)).
Proof.
  destruct (gathered_clips_against_spec_plan
              (CutWindow.init 30 [10; 20]%Q) (Finite 1) eq_refl)
    as (_ & _ & H).
  apply H. exists [keep; keep]. reflexivity.
Defined.

Lemma gathered_plan_invariant_witness :
  exists plan,
    gather_mp3 (CutWindow.init 30 [10; 20]%Q) (Finite 1) 0 0
      [10; 20; 30]%Q [] = Ok plan
    /\ Spec.gaps_only_between plan = true.
Proof.
  destruct (gathered_plan_invariant
              (CutWindow.init 30 [10; 20]%Q) (Finite 1) eq_refl)
    as (plan & E & H).
  exists plan. split; [exact E|exact H].
Defined.

Lemma nothing_kept_empty_plan_witness :
  plan_mp3
    {| CutWindow.duration := 30; CutWindow.cut_points := [10%Q];
       sections := [delete; delete];
       CutWindow.marker_bar :=
         {| CutWindow.mb_duration := 30; CutWindow.markers := [10%Q] |};
       rows := []; silence_input := "1";
       background_image_path := None |} = Ok [].
Proof.
  apply nothing_kept_empty_plan.
  - repeat constructor.
  - reflexivity.
Defined.

(** ** How long the output is when every section is kept *)

Lemma total_all_keep (q : Q) (bounds : list Q) :
  forall last D (emitted : bool) a,
    let secs :=
      combine (Spec.ranges_from last (bounds ++ [D]))
              (repeat keep (S (length bounds))) in
    exists v,
      fold_left pf_add
        (map clip_duration (Spec.build_plan_from emitted secs (Finite q)))
        (Finite a) = Finite v
      /\ (v == a + (D - last)
               + q * (inject_Z (Z.of_nat (length bounds))
                      + if emitted then 1 else 0))%Q.
Proof.
  induction bounds as [|c bounds IH]; intros last D emitted a secs.
  - unfold secs. simpl. destruct emitted; simpl.
    + eexists. split; [reflexivity|]. ring.
    + eexists. split; [reflexivity|]. ring.
  - unfold secs. cbn [app Spec.ranges_from repeat length combine
                        Spec.build_plan_from].
    rewrite map_app, fold_left_app. cbn [map fold_left clip_duration].
    assert (Ea : exists a',
               fold_left pf_add
                 (map clip_duration
                    (if emitted then [SilenceGap (Finite q)] else []))
                 (Finite a) = Finite a'
               /\ (a' == a + q * (if emitted then 1 else 0))%Q).
    { destruct emitted; simpl; eexists; (split; [reflexivity|ring]). }
    destruct Ea as (a' & -> & Ha'). cbn [pf_add].
    destruct (IH c D true (a' + (c - last))%Q) as (v & Ev & Hv).
    exists v. split; [exact Ev|].
    rewrite Hv, Ha', Nat2Z.inj_succ. unfold Z.succ.
    rewrite inject_Z_plus. ring.
Qed.

(** With every section kept, as when the dialog opens, and a silence field
    that reads as the number [q], both paths gather the same clips; their
    durations add up to the duration of the item plus [q] for each cut
    point, and the gaps all lie between two kept ranges. *)
Theorem all_kept_total_duration (self : CutWindow) (q : Q) :
  sections self = repeat keep (S (length (CutWindow.cut_points self))) ->
  get_silence_duration self = Ok (Finite q) ->
  exists plan v,
    plan_mp3 self = Ok plan
    /\ plan_with_background self = Ok plan
    /\ Spec.gaps_only_between plan = true
    /\ total_duration plan = Finite v
    /\ (v == CutWindow.duration self
             + q * inject_Z (Z.of_nat (length (CutWindow.cut_points self))))%Q.
Proof.
  intros Hs Hg.
  assert (Hlen : length (sections self)
                 = S (length (CutWindow.cut_points self)))
    by (rewrite Hs; apply repeat_length).
  pose proof (gather_mp3_from self (Finite q)
                (CutWindow.cut_points self ++ [CutWindow.duration self])
                Hlen 0%nat 0%Q [] false) as H.
  rewrite length_app in H. specialize (H ltac:(simpl; lia)).
  cbv zeta in H. cbn [app skipn] in H.
  set (secs := combine
                 (Spec.ranges_from 0
                    (CutWindow.cut_points self ++ [CutWindow.duration self]))
                 (sections self)) in *.
  assert (Hd : Spec.ends_deleted false secs = false).
  { unfold secs.
    destruct (ranges_from_snoc (CutWindow.cut_points self) 0%Q
                (CutWindow.duration self)) as [x Ex].
    rewrite Ex, Hs.
    replace (repeat keep (S (length (CutWindow.cut_points self))))
      with (repeat keep (length (CutWindow.cut_points self)) ++ [keep])
      by (rewrite <- repeat_cons; reflexivity).
    rewrite combine_snoc by (rewrite ranges_length, repeat_length;
                             reflexivity).
    apply ends_deleted_last_kept. }
  rewrite Hd, app_nil_r in H.
  destruct (total_all_keep q (CutWindow.cut_points self) 0%Q
              (CutWindow.duration self) false 0%Q) as (v & Ev & Hv).
  cbv zeta in Ev. rewrite <- Hs in Ev. fold secs in Ev.
  exists (Spec.build_plan_from false secs (Finite q)), v.
  split; [unfold plan_mp3; rewrite Hg; exact H|].
  split; [unfold plan_with_background; rewrite Hg; cbn [bind];
          rewrite gather_paths_agree; exact H|].
  split; [apply spec_plan_gaps_only_between|].
  split; [exact Ev|].
  rewrite Hv. ring.
Qed.

Lemma all_kept_total_duration_witness :
  exists plan v,
    plan_mp3 (CutWindow.init 30 [10; 20]%Q) = Ok plan
    /\ total_duration plan = Finite v
    /\ (v == 32)%Q.
Proof.
  destruct (all_kept_total_duration (CutWindow.init 30 [10; 20]%Q) 1%Q
              eq_refl eq_refl) as (plan & v & E & _ & _ & T & Hv).
  exists plan, v. split; [exact E|]. split; [exact T|].
  rewrite Hv. reflexivity.
Defined.

(** ** Markers on screen *)

Import MarkerBarView.

Lemma x_pos_error (self : MarkerBar) (width : Z) (marker : Q) :
  x_pos self width marker = ZeroDivisionError
  <-> Qeq_bool (VideoCutter.mb_duration self) 0 = true.
Proof.
  unfold x_pos.
  destruct (Qeq_bool (VideoCutter.mb_duration self) 0); split; intros H;
    solve [reflexivity | discriminate H].
Qed.

Lemma find_from_some (self : MarkerBar) (width x : Z) (ms : list Q) :
  forall i k,
    find_from self width x i ms = Value (Some k) ->
    exists j marker xp,
      k = (i + j)%nat
      /\ nth_error ms j = Some marker
      /\ x_pos self width marker = Value xp
      /\ Z.abs (xp - x) < 5
      /\ forall j' marker',
           (j' < j)%nat -> nth_error ms j' = Some marker' ->
           exists xp', x_pos self width marker' = Value xp'
                       /\ 5 <= Z.abs (xp' - x).
Proof.
  induction ms as [|m ms IH]; intros i k H; simpl in H.
  - discriminate H.
  - destruct (x_pos self width m) as [xp|] eqn:E; [|discriminate H].
    destruct (Z.abs (xp - x) <? 5) eqn:T.
    + inversion H; subst. exists 0%nat, m, xp.
      apply Z.ltb_lt in T.
      split; [lia|]. split; [reflexivity|]. split; [exact E|].
      split; [exact T|]. intros j' marker' Hj. lia.
    + apply Z.ltb_ge in T.
      destruct (IH _ _ H) as (j & marker & xp' & -> & Hn & Ex & Hx & Hfar).
      exists (S j), marker, xp'.
      split; [lia|]. split; [exact Hn|]. split; [exact Ex|].
      split; [exact Hx|].
      intros [|j'] marker' Hj Hn'; simpl in Hn'.
      * inversion Hn'; subst. exists xp. auto.
      * apply (Hfar j' marker'); [lia|exact Hn'].
Qed.

Lemma find_from_none (self : MarkerBar) (width x : Z) (ms : list Q) :
  forall i,
    find_from self width x i ms = Value None ->
    forall marker,
      In marker ms ->
      exists xp, x_pos self width marker = Value xp
                 /\ 5 <= Z.abs (xp - x).
Proof.
  induction ms as [|m ms IH]; intros i H marker Hin; simpl in *.
  - destruct Hin.
  - destruct (x_pos self width m) as [xp|] eqn:E; [|discriminate H].
    destruct (Z.abs (xp - x) <? 5) eqn:T; [discriminate H|].
    apply Z.ltb_ge in T. destruct Hin as [<-|Hin].
    + exists xp. auto.
    + apply (IH _ H _ Hin).
Qed.

Lemma find_from_error (self : MarkerBar) (width x : Z) (ms : list Q) :
  forall i,
    find_from self width x i ms = ZeroDivisionError
    <-> ms <> [] /\ Qeq_bool (VideoCutter.mb_duration self) 0 = true.
Proof.
  induction ms as [|m ms IH]; intros i; simpl.
  - split; [discriminate|]. intros [H _]. destruct (H eq_refl).
  - destruct (x_pos self width m) as [xp|] eqn:E.
    + assert (Hd : Qeq_bool (VideoCutter.mb_duration self) 0 = false).
      { unfold x_pos in E.
        destruct (Qeq_bool (VideoCutter.mb_duration self) 0);
          [discriminate E|reflexivity]. }
      destruct (Z.abs (xp - x) <? 5).
      * split; [discriminate|]. intros [_ H]. congruence.
      * rewrite IH. split; intros [_ H]; congruence.
    + apply x_pos_error in E. split; [|reflexivity].
      intros _. split; [discriminate|exact E].
Qed.

(** [find_marker_by_position] returns the first marker, in the order of
    the list, whose column is less than 5 pixels from the click: every
    marker before it is 5 pixels away or more.  It returns nothing exactly
    when every marker is that far, and it fails on a division by zero
    exactly when the bar has a marker and a zero duration; on an empty bar
    it returns nothing whatever the duration. *)
Theorem find_marker_by_position_first_match (self : MarkerBar)
  (width x : Z) :
  (forall k,
      find_marker_by_position self width x = Value (Some k) ->
      exists marker xp,
        nth_error (VideoCutter.markers self) k = Some marker
        /\ x_pos self width marker = Value xp
        /\ Z.abs (xp - x) < 5
        /\ forall j marker',
             (j < k)%nat ->
             nth_error (VideoCutter.markers self) j = Some marker' ->
             exists xp', x_pos self width marker' = Value xp'
                         /\ 5 <= Z.abs (xp' - x))
  /\ (find_marker_by_position self width x = Value None ->
      forall marker,
        In marker (VideoCutter.markers self) ->
        exists xp, x_pos self width marker = Value xp
                   /\ 5 <= Z.abs (xp - x))
  /\ (find_marker_by_position self width x = ZeroDivisionError
      <-> VideoCutter.markers self <> []
          /\ Qeq_bool (VideoCutter.mb_duration self) 0 = true)
  /\ (VideoCutter.markers self = [] ->
      find_marker_by_position self width x = Value None).
Proof.
  unfold find_marker_by_position. split; [|split; [|split]].
  - intros k H.
    destruct (find_from_some _ _ _ _ _ _ H)
      as (j & marker & xp & -> & Hn & Ex & Hx & Hfar).
    exists marker, xp. auto.
  - apply find_from_none.
  - apply find_from_error.
  - intros ->. reflexivity.
Qed.

Lemma find_marker_by_position_first_match_witness :
  exists marker xp,
    nth_error [10; 10.5; 20]%Q 0 = Some marker
    /\ x_pos {| VideoCutter.mb_duration := 30;
                VideoCutter.markers := [10; 10.5; 20]%Q |} 600 marker
       = Value xp
    /\ Z.abs (xp - 203) < 5.
Proof.
  destruct (find_marker_by_position_first_match
              {| VideoCutter.mb_duration := 30;
                 VideoCutter.markers := [10; 10.5; 20]%Q |} 600 203)
    as (H & _).
  destruct (H 0%nat eq_refl) as (marker & xp & Hn & Ex & Hx & _).
  exists marker, xp. auto.
Defined.

Lemma int_of_float_bounds (q : Q) (w : Z) :
  (0 <= q)%Q -> (q <= inject_Z w)%Q -> 0 <= int_of_float q <= w.
Proof.
  unfold Qle, int_of_float. destruct q as [n d]. simpl.
  intros H0 Hw.
  assert (0 <= n) by lia.
  rewrite Z.quot_div_nonneg by lia.
  split.
  - apply Z.div_pos; lia.
  - apply Z.div_le_upper_bound; lia.
Qed.

Lemma int_of_float_monotone (p q : Q) :
  (0 <= p)%Q -> (p <= q)%Q -> int_of_float p <= int_of_float q.
Proof.
  unfold Qle, int_of_float. destruct p as [n d], q as [n' d']. simpl.
  intros H0 Hpq.
  assert (0 <= n) by lia.
  assert (0 <= n') by nia.
  rewrite !Z.quot_div_nonneg by lia.
  apply Z.div_le_lower_bound; [lia|].
  pose proof (Z.mul_div_le n (Z.pos d) ltac:(lia)) as Hm.
  assert (Z.pos d' * (n / Z.pos d) * Z.pos d <= n' * Z.pos d) by nia.
  nia.
Qed.

Lemma fraction_of_duration (marker d : Q) :
  (0 < d)%Q -> (0 <= marker)%Q -> (marker <= d)%Q ->
  (0 <= marker / d)%Q /\ (marker / d <= 1)%Q.
Proof.
  intros Hd H0 H1. split.
  - apply Qle_shift_div_l; [exact Hd|]. rewrite Qmult_0_l. exact H0.
  - apply Qle_shift_div_r; [exact Hd|]. rewrite Qmult_1_l. exact H1.
Qed.

Lemma x_pos_value (self : MarkerBar) (width : Z) (marker : Q) :
  (0 < VideoCutter.mb_duration self)%Q ->
  x_pos self width marker
  = Value (int_of_float
             ((marker / VideoCutter.mb_duration self) * inject_Z width)).
Proof.
  intros Hd. unfold x_pos.
  destruct (Qeq_bool (VideoCutter.mb_duration self) 0) eqn:E;
    [|reflexivity].
  apply Qeq_bool_iff in E. rewrite E in Hd. discriminate Hd.
Qed.

(** In a bar of positive duration and [width] pixels, a marker within
    [[0, duration]] is drawn at a column within [[0, width]], and a later
    marker is never drawn to the left of an earlier one. *)
Theorem marker_columns_within_bar (self : MarkerBar) (width : Z)
  (m1 m2 : Q) :
  (0 < VideoCutter.mb_duration self)%Q -> 0 <= width ->
  (0 <= m1)%Q -> (m1 <= m2)%Q -> (m2 <= VideoCutter.mb_duration self)%Q ->
  exists x1 x2,
    x_pos self width m1 = Value x1
    /\ x_pos self width m2 = Value x2
    /\ 0 <= x1 /\ x1 <= x2 /\ x2 <= width.
Proof.
  intros Hd Hw H0 H12 H2.
  assert (HW : (0 <= inject_Z width)%Q)
    by (change 0%Q with (inject_Z 0); rewrite <- Zle_Qle; exact Hw).
  assert (H1 : (m1 <= VideoCutter.mb_duration self)%Q)
    by (apply (Qle_trans _ m2); assumption).
  assert (H02 : (0 <= m2)%Q) by (apply (Qle_trans _ m1); assumption).
  destruct (fraction_of_duration m1 _ Hd H0 H1) as [A1 B1].
  destruct (fraction_of_duration m2 _ Hd H02 H2) as [A2 B2].
  rewrite !(x_pos_value self width _ Hd).
  eexists. eexists. split; [reflexivity|]. split; [reflexivity|].
  assert (P1 : (0 <= m1 / VideoCutter.mb_duration self * inject_Z width)%Q)
    by (apply Qmult_le_0_compat; assumption).
  assert (P12 : (m1 / VideoCutter.mb_duration self * inject_Z width
                 <= m2 / VideoCutter.mb_duration self * inject_Z width)%Q).
  { apply Qmult_le_compat_r; [|exact HW].
    apply Qmult_le_compat_r; [exact H12|].
    apply Qinv_le_0_compat. apply Qlt_le_weak. exact Hd. }
  assert (P2 : (m2 / VideoCutter.mb_duration self * inject_Z width
                <= inject_Z width)%Q).
  { rewrite <- (Qmult_1_l (inject_Z width)) at 2.
    apply Qmult_le_compat_r; assumption. }
  split; [apply (int_of_float_bounds _ width P1);
          exact (Qle_trans _ _ _ P12 P2)|].
  split; [apply int_of_float_monotone; assumption|].
  apply int_of_float_bounds; [exact (Qle_trans _ _ _ P1 P12)|exact P2].
Qed.

Lemma marker_columns_within_bar_witness :
  exists x1 x2,
    x_pos {| VideoCutter.mb_duration := 30;
             VideoCutter.markers := [10; 20]%Q |} 600 10 = Value x1
    /\ x_pos {| VideoCutter.mb_duration := 30;
                VideoCutter.markers := [10; 20]%Q |} 600 20 = Value x2
    /\ 0 <= x1 /\ x1 <= x2 /\ x2 <= 600.
Proof.
  apply marker_columns_within_bar.
  - reflexivity.
  - lia.
  - discriminate.
  - discriminate.
  - discriminate.
Defined.

(** ** The marker bar follows the cut points *)

Lemma rev_cons_snoc {A} (l r : list A) (a : A) :
  rev l = a :: r -> l = rev r ++ [a].
Proof.
  intros H. apply (f_equal (@rev A)) in H.
  rewrite rev_involutive in H. exact H.
Qed.

Lemma undo_on_mirrored (app : VideoEditorApp) :
  mirrored app ->
  mirrored (undo_last_marker app)
  /\ clip (undo_last_marker app) = clip app
  /\ VideoCutter.duration (undo_last_marker app) = VideoCutter.duration app
  /\ VideoCutter.mb_duration (VideoCutter.marker_bar (undo_last_marker app))
     = VideoCutter.mb_duration (VideoCutter.marker_bar app).
Proof.
  unfold mirrored. intros Hm. unfold undo_last_marker.
  destruct (rev (VideoCutter.cut_points app)) as [|t r] eqn:E.
  - simpl. auto.
  - apply rev_cons_snoc in E. simpl.
    unfold VideoCutter.remove_marker. rewrite Hm, E.
    rewrite removelast_last, length_app. simpl.
    replace (Z.of_nat (length (rev r) + 1) - 1)
      with (Z.of_nat (length (rev r))) by lia.
    assert (G : (0 <=? Z.of_nat (length (rev r)))
                && (Z.of_nat (length (rev r))
                    <? Z.of_nat (length (rev r) + 1)) = true).
    { apply andb_true_iff. split; [apply Z.leb_le|apply Z.ltb_lt]; lia. }
    rewrite G. simpl. rewrite Nat2Z.id, del_at_last. auto.
Qed.

Lemma click_removes (app : VideoEditorApp) (width x : Z) (k : nat) :
  mirrored app ->
  find_marker_by_position (VideoCutter.marker_bar app) width x
  = Value (Some k) ->
  exists t,
    nth_error (VideoCutter.cut_points app) k = Some t
    /\ mousePressEvent app width x
       = Value
           (log
              (set_cut_points
                 (set_marker_bar app
                    {| VideoCutter.mb_duration :=
                         VideoCutter.mb_duration (VideoCutter.marker_bar app);
                       VideoCutter.markers :=
                         del_at (VideoCutter.cut_points app) k |})
                 (del_at (VideoCutter.cut_points app) k))
              ("Removed marker at "
               ++ VideoCutter.convert_seconds_to_timecode t)).
Proof.
  unfold mirrored. intros Hm F. unfold mousePressEvent. rewrite F.
  unfold find_marker_by_position in F.
  destruct (find_from_some _ _ _ _ _ _ F)
    as (j & marker & xp & -> & Hn & _).
  simpl in Hn. simpl Nat.add.
  assert (Hlt : (j < length (VideoCutter.markers
                               (VideoCutter.marker_bar app)))%nat)
    by (apply nth_error_Some; congruence).
  exists marker. rewrite <- Hm. split; [exact Hn|].
  unfold VideoCutter.remove_marker, remove_cut_point.
  assert (G : (0 <=? Z.of_nat j)
              && (Z.of_nat j
                  <? Z.of_nat (length (VideoCutter.markers
                                         (VideoCutter.marker_bar app))))
              = true).
  { apply andb_true_iff. split; [apply Z.leb_le|apply Z.ltb_lt]; lia. }
  rewrite G. cbn [VideoCutter.cut_points set_marker_bar]. rewrite <- Hm, G.
  rewrite Nat2Z.id, Hn. reflexivity.
Qed.

Lemma click_on_mirrored (app app' : VideoEditorApp) (width x : Z) :
  mirrored app ->
  mousePressEvent app width x = Value app' ->
  mirrored app'
  /\ clip app' = clip app
  /\ VideoCutter.duration app' = VideoCutter.duration app
  /\ VideoCutter.mb_duration (VideoCutter.marker_bar app')
     = VideoCutter.mb_duration (VideoCutter.marker_bar app)
  /\ (find_marker_by_position (VideoCutter.marker_bar app) width x
      = Value None -> app' = app)
  /\ forall k,
       find_marker_by_position (VideoCutter.marker_bar app) width x
       = Value (Some k) ->
       VideoCutter.cut_points app'
       = del_at (VideoCutter.cut_points app) k
       /\ S (length (VideoCutter.cut_points app'))
          = length (VideoCutter.cut_points app).
Proof.
  intros Hm H.
  destruct (find_marker_by_position (VideoCutter.marker_bar app) width x)
    as [[k|]|] eqn:F.
  - destruct (click_removes app width x k Hm F) as (t & Hn & E).
    rewrite E in H. inversion H; subst; clear H.
    unfold mirrored. simpl.
    split; [reflexivity|]. split; [reflexivity|]. split; [reflexivity|].
    split; [reflexivity|]. split; [discriminate|].
    intros k' Hk. inversion Hk; subst. split; [reflexivity|].
    assert (Hlt : (k' < length (VideoCutter.cut_points app))%nat)
      by (apply nth_error_Some; congruence).
    unfold del_at. rewrite length_app, length_firstn, length_skipn. lia.
  - unfold mousePressEvent in H. rewrite F in H.
    inversion H; subst; clear H.
    split; [exact Hm|]. split; [reflexivity|]. split; [reflexivity|].
    split; [reflexivity|]. split; [reflexivity|].
    intros k Hk. discriminate Hk.
  - unfold mousePressEvent in H. rewrite F in H. discriminate H.
Qed.

(** Once a clip is loaded and the bar shows the cut points, it goes on
    showing them, same times in the same order, through every manual
    marker (accepted or refused), every undo, every click on the bar, every
    new video loaded, and every cut point taken at a player position within
    [[0, duration]]. *)
Theorem marker_bar_mirrors_cut_points (app : VideoEditorApp) (d : Q) :
  loaded app d -> mirrored app ->
  (forall text app',
      add_manual_marker app text = Ok app' ->
      mirrored app' /\ loaded app' d)
  /\ (mirrored (undo_last_marker app) /\ loaded (undo_last_marker app) d)
  /\ (forall width x app',
         mousePressEvent app width x = Value app' ->
         mirrored app' /\ loaded app' d)
  /\ (forall chosen, mirrored (load_video app chosen))
  /\ (forall player_time,
         in_range (inject_Z player_time / 1000) d = true ->
         mirrored (add_cut_point app player_time)
         /\ loaded (add_cut_point app player_time) d).
Proof.
  intros (Hc & Hd & Hb) Hm. split; [|split; [|split; [|split]]].
  - intros text app'. unfold add_manual_marker.
    destruct (parse_timecode text) as [[t|]|e]; simpl;
      [| |discriminate].
    + destruct (Qle_bool 0 t) eqn:E0.
      * rewrite Hc. destruct (Qle_bool t d) eqn:E1;
          intros H; inversion H; subst; clear H;
          unfold mirrored, loaded in *; simpl.
        -- unfold VideoCutter.add_marker, in_range.
           rewrite Hb, E0, E1. simpl. rewrite Hm. auto.
        -- auto.
      * intros H; inversion H; subst. unfold mirrored, loaded in *.
        simpl. auto.
    + intros H; inversion H; subst. unfold mirrored, loaded in *.
      simpl. auto.
  - destruct (undo_on_mirrored app Hm) as (A & B & C & D).
    split; [exact A|]. unfold loaded. rewrite B, C, D. auto.
  - intros width x app' H.
    destruct (click_on_mirrored app app' width x Hm H)
      as (A & B & C & D & _).
    split; [exact A|]. unfold loaded. rewrite B, C, D. auto.
  - intros [d'|]; unfold mirrored in *; simpl; exact Hm.
  - intros player_time Hr. unfold add_cut_point. rewrite Hc.
    unfold mirrored, loaded in *. simpl.
    unfold VideoCutter.add_marker. rewrite Hb, Hr. simpl.
    rewrite Hm. auto.
Qed.

Lemma marker_bar_mirrors_cut_points_witness :
  mirrored
    (undo_last_marker
       (add_cut_point (load_video VideoCutter.init (Some 30%Q)) 5000)).
Proof.
  destruct (marker_bar_mirrors_cut_points
              (add_cut_point (load_video VideoCutter.init (Some 30%Q)) 5000)
              30%Q) as (_ & [H _] & _).
  - repeat split.
  - reflexivity.
  - exact H.
Defined.

(** A player position outside [[0, duration]] is stored as a cut point
    although the bar refuses the marker.  The bar then shows one marker
    fewer than there are cut points, and undoing that cut point takes the
    last marker of the bar with it: the cut points are as before, the bar
    has lost the marker of the last of them. *)
Theorem cut_point_out_of_range_loses_a_marker (app : VideoEditorApp)
  (d : Q) (player_time : Z) :
  loaded app d -> mirrored app ->
  in_range (inject_Z player_time / 1000) d = false ->
  let added := add_cut_point app player_time in
  let undone := undo_last_marker added in
  VideoCutter.cut_points added
  = VideoCutter.cut_points app ++ [(inject_Z player_time / 1000)%Q]
  /\ VideoCutter.markers (VideoCutter.marker_bar added)
     = VideoCutter.cut_points app
  /\ VideoCutter.cut_points undone = VideoCutter.cut_points app
  /\ VideoCutter.markers (VideoCutter.marker_bar undone)
     = removelast (VideoCutter.cut_points app).
Proof.
  intros (Hc & Hd & Hb) Hm Hr added undone.
  unfold mirrored in Hm.
  assert (Ea : added
               = set_marker_bar
                   (log (set_cut_points app
                           (VideoCutter.cut_points app
                            ++ [(inject_Z player_time / 1000)%Q]))
                      (VideoCutter.convert_seconds_to_timecode
                         (inject_Z player_time / 1000)))
                   (VideoCutter.marker_bar app)).
  { unfold added, add_cut_point. rewrite Hc.
    unfold VideoCutter.add_marker. simpl. rewrite Hb, Hr. reflexivity. }
  split; [rewrite Ea; reflexivity|].
  split; [rewrite Ea; exact Hm|].
  unfold undone. rewrite Ea. unfold undo_last_marker. simpl.
  rewrite rev_app_distr. simpl.
  split; [apply removelast_last|].
  unfold VideoCutter.remove_marker. rewrite Hm.
  destruct (rev (VideoCutter.cut_points app)) as [|t r] eqn:E.
  - assert (En : VideoCutter.cut_points app = []).
    { apply (f_equal (@rev Q)) in E. rewrite rev_involutive in E.
      exact E. }
    rewrite En. simpl. rewrite Hm, En. reflexivity.
  - apply rev_cons_snoc in E. rewrite E.
    rewrite removelast_last, length_app. simpl.
    replace (Z.of_nat (length (rev r) + 1) - 1)
      with (Z.of_nat (length (rev r))) by lia.
    assert (G : (0 <=? Z.of_nat (length (rev r)))
                && (Z.of_nat (length (rev r))
                    <? Z.of_nat (length (rev r) + 1)) = true).
    { apply andb_true_iff. split; [apply Z.leb_le|apply Z.ltb_lt]; lia. }
    rewrite G. simpl. rewrite Nat2Z.id. apply del_at_last.
Qed.

Lemma cut_point_out_of_range_loses_a_marker_witness :
  let app := add_cut_point (load_video VideoCutter.init (Some 30%Q)) 5000 in
  VideoCutter.markers
    (VideoCutter.marker_bar
       (undo_last_marker (add_cut_point app 31000))) = [].
Proof.
  intros app.
  destruct (cut_point_out_of_range_loses_a_marker app 30%Q 31000)
    as (_ & _ & _ & H).
  - repeat split.
  - reflexivity.
  - reflexivity.
  - exact H.
Defined.

(** Undoing the last marker is removing the cut point of the last index,
    together with the last marker of the bar: same cut points, same line in
    the text box. *)
Theorem undo_is_remove_last (app : VideoEditorApp) :
  VideoCutter.cut_points app <> [] ->
  undo_last_marker app
  = set_marker_bar
      (remove_cut_point app
         (Z.of_nat (length (VideoCutter.cut_points app)) - 1))
      (VideoCutter.remove_marker (VideoCutter.marker_bar app)
         (Z.of_nat (length (VideoCutter.markers
                              (VideoCutter.marker_bar app))) - 1)).
Proof.
  intros Hne. unfold undo_last_marker, remove_cut_point.
  destruct (rev (VideoCutter.cut_points app)) as [|t r] eqn:E.
  - apply (f_equal (@rev Q)) in E. rewrite rev_involutive in E.
    destruct (Hne E).
  - apply rev_cons_snoc in E. rewrite E.
    rewrite removelast_last, length_app. simpl length.
    replace (Z.of_nat (length (rev r) + 1) - 1)
      with (Z.of_nat (length (rev r))) by lia.
    assert (G : (0 <=? Z.of_nat (length (rev r)))
                && (Z.of_nat (length (rev r))
                    <? Z.of_nat (length (rev r) + 1)) = true).
    { apply andb_true_iff. split; [apply Z.leb_le|apply Z.ltb_lt]; lia. }
    rewrite G, Nat2Z.id.
    rewrite nth_error_app2, Nat.sub_diag by lia. simpl nth_error.
    rewrite del_at_last. reflexivity.
Qed.

Lemma undo_is_remove_last_witness :
  let app := add_cut_point (load_video VideoCutter.init (Some 30%Q)) 5000 in
  undo_last_marker app
  = set_marker_bar (remove_cut_point app 0)
      (VideoCutter.remove_marker (VideoCutter.marker_bar app) 0).
Proof.
  intros app. apply (undo_is_remove_last app). discriminate.
Defined.

Lemma nth_error_del_at {A} (l : list A) :
  forall k j,
    nth_error (del_at l k) j
    = nth_error l (if (j <? k)%nat then j else S j).
Proof.
  unfold del_at. induction l as [|a l IH]; intros k j.
  - rewrite firstn_nil, skipn_nil. simpl. rewrite !nth_error_nil.
    reflexivity.
  - destruct k as [|k]; simpl.
    + reflexivity.
    + destruct j as [|j]; simpl; [reflexivity|].
      rewrite IH.
      change (S j <? S k)%nat with (j <? k)%nat.
      destruct (j <? k)%nat; reflexivity.
Qed.

(** A click on the bar that finds the marker of index [k] removes the cut
    point of index [k] and the marker of index [k], and nothing else: the
    cut points before [k] stay where they are, those after it move up by
    one, and one line is added to the text box.  A click that finds no
    marker changes nothing. *)
Theorem click_removes_the_marker_found (app app' : VideoEditorApp)
  (width x : Z) :
  mirrored app ->
  mousePressEvent app width x = Value app' ->
  (find_marker_by_position (VideoCutter.marker_bar app) width x
   = Value None -> app' = app)
  /\ forall k,
       find_marker_by_position (VideoCutter.marker_bar app) width x
       = Value (Some k) ->
       (forall j,
           nth_error (VideoCutter.cut_points app') j
           = nth_error (VideoCutter.cut_points app)
               (if (j <? k)%nat then j else S j))
       /\ VideoCutter.markers (VideoCutter.marker_bar app')
          = VideoCutter.cut_points app'
       /\ S (length (VideoCutter.cut_points app'))
          = length (VideoCutter.cut_points app)
       /\ length (text_edit app') = S (length (text_edit app)).
Proof.
  intros Hm H. split.
  - intros F. unfold mousePressEvent in H. rewrite F in H.
    inversion H. reflexivity.
  - intros k F.
    destruct (click_removes app width x k Hm F) as (t & Hn & E).
    rewrite E in H. inversion H; subst; clear H. simpl.
    split; [intros j; apply nth_error_del_at|].
    split; [reflexivity|].
    split.
    + assert (Hlt : (k < length (VideoCutter.cut_points app))%nat)
        by (apply nth_error_Some; congruence).
      unfold del_at. rewrite length_app, length_firstn, length_skipn. lia.
    + rewrite length_app. simpl. lia.
Qed.

Lemma click_removes_the_marker_found_witness :
  let app :=
    add_cut_point
      (add_cut_point (load_video VideoCutter.init (Some 30%Q)) 10000)
      20000 in
  exists app',
    mousePressEvent app 600 201 = Value app'
    /\ S (length (VideoCutter.cut_points app')) = 2%nat.
Proof.
  intros app. eexists. split; [reflexivity|].
  eapply (click_removes_the_marker_found app _ 600 201).
  - reflexivity.
  - reflexivity.
  - reflexivity.
Defined.

(** Loading another video keeps the cut points taken on the previous one.
    The dialog opened next builds its sections from all of them, one more
    section than cut points, but marks on its bar only those within the new
    duration. *)
Theorem cut_points_survive_load_video (app : VideoEditorApp) (d : Q) :
  VideoCutter.cut_points (load_video app (Some d))
  = VideoCutter.cut_points app
  /\ exists w,
       snd (open_cut_window (load_video app (Some d))) = Some w
       /\ CutWindow.cut_points w = VideoCutter.cut_points app
       /\ CutWindow.duration w = d
       /\ length (rows w) = S (length (VideoCutter.cut_points app))
       /\ CutWindow.markers (CutWindow.marker_bar w)
          = filter (fun t => Qle_bool 0 t && Qle_bool t d)
              (VideoCutter.cut_points app).
Proof.
  split; [reflexivity|].
  unfold open_cut_window. simpl.
  eexists. split; [reflexivity|].
  pose proof (dialog_markers_fold (VideoCutter.cut_points app)
                {| CutWindow.mb_duration := d;
                   CutWindow.markers := [] |}) as [_ Hf].
  split; [|split; [|split]].
  - unfold CutWindow.init.
    destruct (section_loop 0 0 (VideoCutter.cut_points app ++ [d])).
    reflexivity.
  - unfold CutWindow.init.
    destruct (section_loop 0 0 (VideoCutter.cut_points app ++ [d])).
    reflexivity.
  - apply init_rows_length.
  - unfold CutWindow.init.
    destruct (section_loop 0 0 (VideoCutter.cut_points app ++ [d])).
    exact Hf.
Qed.

Lemma parse_timecode_nonneg (text : string) (t : Q) :
  parse_timecode text = Ok (Some t) -> Qle_bool 0 t = true.
Proof.
  intros H. apply Qle_bool_iff. apply parse_timecode_shape in H.
  destruct H as [h m s ms Fh Fm Fs Fms|h m s Fh Fm Fs
                |m s ms Fm Fs Fms|m s Fm Fs];
    repeat match goal with
           | F : Spec.field _ _ _ |- _ =>
               apply field_value_bounds in F; simpl in F
           end;
    unfold Spec.seconds_of, Spec.millis_of;
    repeat match goal with
           | |- context [digits_value ?d] =>
               let n := fresh "n" in
               remember (digits_value d) as n
           end;
    unfold Qle, Qdiv, Qmult, Qplus, Qinv, inject_Z; simpl; lia.
Qed.

(** Before any video is loaded: taking a cut point at the player position
    does nothing, opening the dialog only writes "No video loaded.", a
    manual marker whose text is no timecode is refused as usual, and a
    manual marker whose text is a timecode raises [AttributeError], the
    cut points being left as they were. *)
Theorem commands_without_a_clip (app : VideoEditorApp) :
  clip app = None ->
  (forall player_time, add_cut_point app player_time = app)
  /\ open_cut_window app = (log app "No video loaded.", None)
  /\ (forall text,
         parse_timecode text = Ok None ->
         add_manual_marker app text = Ok (log app "Invalid timecode."))
  /\ (forall text t,
         parse_timecode text = Ok (Some t) ->
         add_manual_marker app text = Raise AttributeError).
Proof.
  intros Hc. split; [|split; [|split]].
  - intros player_time. unfold add_cut_point. rewrite Hc. reflexivity.
  - unfold open_cut_window. rewrite Hc. reflexivity.
  - intros text H. unfold add_manual_marker. rewrite H. reflexivity.
  - intros text t H. unfold add_manual_marker. rewrite H. simpl.
    rewrite (parse_timecode_nonneg text t H), Hc. reflexivity.
Qed.

Lemma commands_without_a_clip_witness :
  add_manual_marker VideoCutter.init "00:10" = Raise AttributeError.
Proof.
  destruct (commands_without_a_clip VideoCutter.init eq_refl)
    as (_ & _ & _ & H).
  apply (H "00:10"%string 10%Q). reflexivity.
Defined.
